(** * js-eventstream: the connection handler and the publish sink

    A shallow embedding of [src/ConnectEventStream.ts] and
    [src/stream/ChannelWritable.ts].  The handler is a sequence of calls
    on a Node request/response pair and on a few collaborators; it is
    embedded in a state-and-exception monad over a [World] that holds the
    two mutable objects and the log of collaborator calls. *)

From Stdlib Require Import ZArith.
From stdpp Require Import base option list strings gmap.

Set Warnings "-clear-no-such-hyp".

Local Open Scope Z_scope.
Local Open Scope string_scope.
Local Open Scope list_scope.

(** ** JavaScript odds and ends *)

(** The line feed written [\n] in the source's string literals. *)
Definition LF : string := String (Ascii.ascii_of_nat 10) EmptyString.

(** Values thrown by the runtime on the paths the handler can take. *)
Inductive Exn :=
| TypeError (message : string)
| ERR_HTTP_HEADERS_SENT.

(** ** The Node [http] objects *)

Module Http.

(** [IncomingHttpHeaders]: a header is a string or a list of strings. *)
Inductive HeaderValue :=
| HStr (s : string)
| HArr (l : list string).

(** What [`${v}`] yields for a header slot. *)
Definition template (v : option HeaderValue) : string :=
  match v with
  | None => "undefined"
  | Some (HStr s) => s
  | Some (HArr l) => String.concat "," l
  end.

(** [req.grip], as populated by connect-grip. *)
Record RequestGrip := {
  isProxied : bool;
  isSigned : bool;
  needsSigned : bool;
}.

Record IncomingMessage := {
  headers : gmap string HeaderValue;
  url : string;
  grip : option RequestGrip;
  req_statusCode : option Z;
}.

(** [ServerResponse]: [statusCode] is a plain writable field; the status
    line goes out with the first [write] or [end], and [headSent]
    records the code that was on the object at that moment. *)
Record ServerResponse := {
  statusCode : Z;
  res_headers : list (string * string);
  headSent : option Z;
  chunks : list string;
  finished : bool;
}.

Definition freshResponse : ServerResponse :=
  {| statusCode := 200; res_headers := []; headSent := None;
     chunks := []; finished := false |}.

Definition flushHead (r : ServerResponse) : option Z :=
  match headSent r with
  | Some c => Some c
  | None => Some (statusCode r)
  end.

Definition write (chunk : string) (r : ServerResponse) : ServerResponse :=
  if finished r then r
  else {| statusCode := statusCode r; res_headers := res_headers r;
          headSent := flushHead r; chunks := chunks r ++ [chunk];
          finished := false |}.

Definition end_ (chunk : option string) (r : ServerResponse) : ServerResponse :=
  if finished r then r
  else {| statusCode := statusCode r; res_headers := res_headers r;
          headSent := flushHead r;
          chunks := chunks r ++ from_option (λ c, [c]) [] chunk;
          finished := true |}.

Definition setStatusCode (c : Z) (r : ServerResponse) : ServerResponse :=
  {| statusCode := c; res_headers := res_headers r; headSent := headSent r;
     chunks := chunks r; finished := finished r |}.

(** [setHeader] refuses once the head is out. *)
Definition setHeader (k v : string) (r : ServerResponse) : option ServerResponse :=
  match headSent r with
  | Some _ => None
  | None => Some {| statusCode := statusCode r;
                    res_headers := res_headers r ++ [(k, v)];
                    headSent := None; chunks := chunks r;
                    finished := finished r |}
  end.

(** [URLSearchParams.getAll]: every value filed under [name], in order. *)
Definition getAll (name : string) (searchParams : list (string * string)) : list string :=
  (filter (λ kv, kv.1 = name) searchParams).*2.

End Http.

(** ** The world a handler runs in *)

(** Calls on collaborators and on the response, in program order. *)
Inductive Call :=
| ConnectGripRun
| ResEnd (chunk : option string)
| ResWrite (chunk : string)
| ResSetHeader (name value : string)
| StartInstruct
| SetHoldStream
| AddChannel (channels : list string)
| SetKeepAlive (frame : string) (timeout : Z)
| ToHeaders
| NewAddressedEventsReadable (channels : list string)
| PipeSerializer
| PipeResponse.

Record World := {
  req : Http.IncomingMessage;
  res : Http.ServerResponse;
  calls : list Call;
}.

(** State and exceptions: a computation either returns or throws, and
    leaves the world as it was at that point. *)
Definition M (A : Type) : Type := World → (Exn + A) * World.

#[global] Instance M_ret : MRet M := λ A a w, (inr a, w).
#[global] Instance M_bind : MBind M := λ A B f m w,
  match m w with
  | (inr a, w') => f a w'
  | (inl e, w') => (inl e, w')
  end.

Definition throw {A} (e : Exn) : M A := λ w, (inl e, w).
Definition getReq : M Http.IncomingMessage := λ w, (inr (req w), w).
Definition modifyReq (f : Http.IncomingMessage → Http.IncomingMessage) : M unit :=
  λ w, (inr tt, {| req := f (req w); res := res w; calls := calls w |}).
Definition modifyRes (f : Http.ServerResponse → Http.ServerResponse) : M unit :=
  λ w, (inr tt, {| req := req w; res := f (res w); calls := calls w |}).
Definition call (c : Call) : M unit :=
  λ w, (inr tt, {| req := req w; res := res w; calls := calls w ++ [c] |}).
Definition liftE {A} (r : Exn + A) : M A := λ w, (r, w).

(** The response methods, logged. *)
Definition res_setStatusCode (c : Z) : M unit := modifyRes (Http.setStatusCode c).
Definition res_end (chunk : option string) : M unit :=
  call (ResEnd chunk) ;; modifyRes (Http.end_ chunk).
Definition res_write (chunk : string) : M unit :=
  call (ResWrite chunk) ;; modifyRes (Http.write chunk).
Definition tryRes (f : Http.ServerResponse → option Http.ServerResponse) (e : Exn) : M unit :=
  λ w, match f (res w) with
       | Some r => (inr tt, {| req := req w; res := r; calls := calls w |})
       | None => (inl e, w)
       end.
Definition res_setHeader (k v : string) : M unit :=
  call (ResSetHeader k v) ;; tryRes (Http.setHeader k v) ERR_HTTP_HEADERS_SENT.
Definition req_setStatusCode (c : Z) : M unit :=
  modifyReq (λ r, {| Http.headers := Http.headers r; Http.url := Http.url r;
                     Http.grip := Http.grip r; Http.req_statusCode := Some c |}).
Definition req_setGrip (g : Http.RequestGrip) : M unit :=
  modifyReq (λ r, {| Http.headers := Http.headers r; Http.url := Http.url r;
                     Http.grip := Some g;
                     Http.req_statusCode := Http.req_statusCode r |}).

(** A request as the server hands it over: untouched response, empty log. *)
Definition arrive (r : Http.IncomingMessage) : World :=
  {| req := r; res := Http.freshResponse; calls := [] |}.

(** ** Handler options ([IHandlerOptions]) *)

(** [channelsFromQuery] is a boolean or the name of the query parameter. *)
Inductive ChannelsFromQuery :=
| FromQueryBool (b : bool)
| FromQueryName (name : string).

Record IHandlerOptions := {
  channels : option (list string);
  channelsFromQuery : option ChannelsFromQuery;
}.

(** [x !== false]. *)
Definition isNotFalse (x : ChannelsFromQuery) : bool :=
  match x with
  | FromQueryBool false => false
  | _ => true
  end.

(** What string concatenation makes of the value. *)
Definition toString (x : ChannelsFromQuery) : string :=
  match x with
  | FromQueryBool true => "true"
  | FromQueryBool false => "false"
  | FromQueryName s => s
  end.

(** [IServerSentEvent]. *)
Record IServerSentEvent := {
  event : string;
  data : string;
  id : option string;
}.

Definition streamOpen : IServerSentEvent := {| event := "stream-open"; data := ""; id := None |}.
Definition keepAlive : IServerSentEvent := {| event := "keep-alive"; data := ""; id := None |}.

(** ** [ConnectEventStream] *)

Module ConnectEventStream.

Section Handler.

(** Collaborators that live outside the two embedded files: the
    [accepts] negotiator, [utils/http], the WHATWG [URL] parser
    (which throws on input it cannot parse: [None]),
    [utils/textEventStream], [constants] and connect-grip.  The
    opaque [GripPublisherSpec] has no [grip] property of its own. *)
Variable accepts_types : option Http.HeaderValue → string → bool.
Variable flattenHttpHeaders : option Http.HeaderValue → option string.
Variable URL_searchParams : string → string → option (list (string * string)).
Variable encodeEvent : IServerSentEvent → string.
Variable joinEncodedEvents : list string → string.
Variable KEEP_ALIVE_TIMEOUT : Z.
Variable GripPublisherSpec : Type.

Record IGripEventStreamConfig := {
  cfg_grip : option GripPublisherSpec;
  cfg_prefix : option string;
}.

(** [null | GripPublisherSpec | IGripEventStreamConfig]. *)
Inductive Params :=
| Null
| Spec (spec : GripPublisherSpec)
| Config (cfg : IGripEventStreamConfig).

(** The options object handed to [new ConnectGrip]. *)
Record ConnectGrip := {
  cg_grip : Params;
  cg_prefix : string;
}.

(** connect-grip's [run], by its contract: it reads the request and
    fills in [req.grip] (and the instruct API on the response), and does
    nothing else to the response. *)
Variable connectGrip_run : ConnectGrip → Http.IncomingMessage → Http.RequestGrip.

(** A property value of [_channelWritables]: a [ChannelWritable] on
    the heap, or a member the object literal inherits. *)
Inductive Value :=
| ChannelWritableRef (address : nat)
| Inherited (name : string).

Record ConnectEventStream := {
  connectGrip : option ConnectGrip;
  prefix : string;
  _channelWritables : gmap string Value;
}.

Definition constructor (params : Params) : ConnectEventStream :=
  let '(gripParam, prefix) :=
    match params with
    | Config {| cfg_grip := Some g; cfg_prefix := p |} => (Some (Spec g), p)
    | Config cfg => (Some (Config cfg), None)
    | Spec s => (Some (Spec s), None)
    | Null => (None, None)
    end in
  let prefix := default "events-" prefix in
  {| connectGrip :=
       match gripParam with
       | Some g => Some {| cg_grip := g; cg_prefix := prefix |}
       | None => None
       end;
     prefix := prefix;
     _channelWritables := ∅ |}.

(** *** [getChannelWritable] *)

(** Names every object literal answers to through [Object.prototype]. *)
Definition objectPrototype : list string :=
  [ "constructor"; "__defineGetter__"; "__defineSetter__"; "hasOwnProperty";
    "__lookupGetter__"; "__lookupSetter__"; "isPrototypeOf";
    "propertyIsEnumerable"; "toString"; "valueOf"; "__proto__";
    "toLocaleString" ].

(** [o[k]]: own properties first, then the prototype. *)
Definition getProperty (o : gmap string Value) (k : string) : option Value :=
  match o !! k with
  | Some v => Some v
  | None => if bool_decide (k ∈ objectPrototype) then Some (Inherited k) else None
  end.

(** The heap of constructed [ChannelWritable]s, each with the channel
    it was built for; an object's address is its position. *)
Definition Heap := list string.

Definition getChannelWritable (channel : string)
    (st : ConnectEventStream * Heap) : Value * (ConnectEventStream * Heap) :=
  let '(this, heap) := st in
  match getProperty (_channelWritables this) channel with
  | Some v => (v, st)
  | None =>
      let w := ChannelWritableRef (length heap) in
      (w, ({| connectGrip := connectGrip this; prefix := prefix this;
              _channelWritables := <[channel := w]> (_channelWritables this) |},
           heap ++ [channel]))
  end.

(** *** [run] *)

(** The merge loop: [if (!channels.includes(value)) channels.push(value)]. *)
Definition pushUnique (channels : list string) (value : string) : list string :=
  if bool_decide (value ∈ channels) then channels else channels ++ [value].

Definition readChannelsFromQuery (o : option IHandlerOptions) : ChannelsFromQuery :=
  default (FromQueryBool false) (o ≫= channelsFromQuery).

Definition channelParamName (o : option IHandlerOptions) : string :=
  match readChannelsFromQuery o with
  | FromQueryName s => s
  | FromQueryBool _ => "channel"
  end.

Definition configuredChannels (o : option IHandlerOptions) : list string :=
  default [] (o ≫= channels).

Definition readsQuery (o : option IHandlerOptions) : bool :=
  bool_decide (length (configuredChannels o) = 0%nat)
  || isNotFalse (readChannelsFromQuery o).

(** Lines 224-236. *)
Definition resolveChannels (o : option IHandlerOptions)
    (r : Http.IncomingMessage) : Exn + list string :=
  let channels := configuredChannels o in
  if readsQuery o then
    match URL_searchParams (Http.url r)
            ("http://" +:+ Http.template (Http.headers r !! "host")) with
    | Some searchParams =>
        inr (fold_left pushUnique (Http.getAll (channelParamName o) searchParams) channels)
    | None => inl (TypeError "Invalid URL")
    end
  else inr channels.

Definition noChannelsMessage (o : option IHandlerOptions) : string :=
  "No specified channels." +:+
  (if isNotFalse (readChannelsFromQuery o)
   then " Specify the channels to read from using the ?"
        +:+ toString (readChannelsFromQuery o) +:+ " query parameter."
   else "").

(** The [debug] calls and the two [debug]-only listeners on the piped
    response are left out; everything else is line for line. *)
Definition run (this : ConnectEventStream)
    (eventStreamOptions : option IHandlerOptions) : M unit :=
  r ← getReq;
  if negb (accepts_types (Http.headers r !! "accept") "text/event-stream") then
    res_setStatusCode 406 ;;
    res_end (Some ("Not Acceptable." +:+ LF))
  else
    grip ←
      match Http.grip r with
      | Some g => mret g
      | None =>
          match connectGrip this with
          | Some cg =>
              call ConnectGripRun ;;
              let g := connectGrip_run cg r in
              req_setGrip g ;; mret g
          | None => throw (TypeError "Cannot read properties of undefined (reading 'run')")
          end
      end;
    if Http.isProxied grip && (Http.needsSigned grip && negb (Http.isSigned grip)) then
      req_setStatusCode 403 ;;
      res_end (Some ("GRIP Signature Invalid." +:+ LF))
    else
      let lastEventId := flattenHttpHeaders (Http.headers r !! "last-event-id") in
      if bool_decide (lastEventId = Some "error") then
        res_setStatusCode 400 ;;
        res_end (Some ("last-event-id header may not be 'error'." +:+ LF))
      else
        channels ← liftE (resolveChannels eventStreamOptions r);
        if bool_decide (length channels = 0%nat) then
          res_setStatusCode 400 ;;
          res_end (Some (noChannelsMessage eventStreamOptions +:+ LF))
        else
          res_setStatusCode 200 ;;
          let events := [encodeEvent streamOpen] in
          (if Http.isProxied grip then
             call StartInstruct ;;
             call SetHoldStream ;;
             call (AddChannel channels) ;;
             let keepAliveValue := encodeEvent keepAlive in
             call (SetKeepAlive keepAliveValue KEEP_ALIVE_TIMEOUT) ;;
             call ToHeaders
           else
             res_setHeader "Connection" "Transfer-Encoding" ;;
             res_setHeader "Transfer-Encoding" "chunked") ;;
          res_write (joinEncodedEvents events) ;;
          if Http.isProxied grip then
            res_end None
          else
            call (NewAddressedEventsReadable channels) ;;
            call PipeSerializer ;;
            call PipeResponse.

(** *** Vocabulary for statements about [run] *)

(** The flags [run] works with: the request's own when it carries
    them, otherwise those connect-grip reports. *)
Definition hasFlags (this : ConnectEventStream) (r : Http.IncomingMessage)
    (g : Http.RequestGrip) : Prop :=
  Http.grip r = Some g ∨
  (Http.grip r = None ∧
   ∃ cg, connectGrip this = Some cg ∧ connectGrip_run cg r = g).

(** The signature check of lines 204-211 lets the request through. *)
Definition signatureInOrder (g : Http.RequestGrip) : Prop :=
  Http.isProxied g && (Http.needsSigned g && negb (Http.isSigned g)) = false.

Definition detectionCalls (r : Http.IncomingMessage) : list Call :=
  match Http.grip r with
  | Some _ => []
  | None => [ConnectGripRun]
  end.

Definition withGrip (r : Http.IncomingMessage) (g : Http.RequestGrip) : Http.IncomingMessage :=
  match Http.grip r with
  | Some _ => r
  | None => {| Http.headers := Http.headers r; Http.url := Http.url r;
               Http.grip := Some g;
               Http.req_statusCode := Http.req_statusCode r |}
  end.

(** A response ended with one body chunk under status [c]. *)
Definition endedWith (c : Z) (body : string) : Http.ServerResponse :=
  {| Http.statusCode := c; Http.res_headers := []; Http.headSent := Some c;
     Http.chunks := [body]; Http.finished := true |}.

Definition handshake : string := joinEncodedEvents [encodeEvent streamOpen].

Definition holdCalls (channels : list string) : list Call :=
  [ StartInstruct; SetHoldStream; AddChannel channels;
    SetKeepAlive (encodeEvent keepAlive) KEEP_ALIVE_TIMEOUT; ToHeaders;
    ResWrite handshake; ResEnd None ].

Definition pipeCalls (channels : list string) : list Call :=
  [ ResSetHeader "Connection" "Transfer-Encoding";
    ResSetHeader "Transfer-Encoding" "chunked";
    ResWrite handshake;
    NewAddressedEventsReadable channels; PipeSerializer; PipeResponse ].

End Handler.

Arguments Null {GripPublisherSpec}.
Arguments Spec {GripPublisherSpec} spec.
Arguments Config {GripPublisherSpec} cfg.
Arguments constructor {GripPublisherSpec} params.
Arguments connectGrip {GripPublisherSpec} c.
Arguments prefix {GripPublisherSpec} c.
Arguments _channelWritables {GripPublisherSpec} c.
Arguments getProperty o k : simpl never.
Arguments getChannelWritable {GripPublisherSpec} channel st.
Arguments hasFlags {GripPublisherSpec} connectGrip_run this r g.

End ConnectEventStream.

(** ** [ChannelWritable] *)

Module ChannelWritable.

(** [Error] objects, by their message. *)
Record Error := { message : string }.

(** What a failed [publishEvent] hands to [catch]: an [Error]
    instance, [undefined], some other value that converts to a string
    (given by that string), or a value that does not: a [Symbol], an
    object without a prototype, an object whose [toString] throws. *)
Inductive Thrown :=
| ThrownError (e : Error)
| ThrownUndefined
| ThrownOther (asString : string)
| ThrownUnconvertible.

Inductive Settlement :=
| Resolved
| Rejected (ex : Thrown).

(** An [async] body: it runs up to an [await], and goes on from the
    settlement it is resumed with; [Throw] is an exception that leaves
    the body, so that the promise it returned rejects. *)
Inductive Async :=
| Done
| AwaitPublishEvent (event : IServerSentEvent) (k : Settlement → Async)
| Callback (err : option Error) (k : Async)
| Throw.

(** [ex instanceof Error ? ex : new Error(ex)].  The constructor
    converts its argument to a string for the message, and throws where
    the conversion does: [None]. *)
Definition asError (ex : Thrown) : option Error :=
  match ex with
  | ThrownError e => Some e
  | ThrownUndefined => Some {| message := "" |}
  | ThrownOther s => Some {| message := s |}
  | ThrownUnconvertible => None
  end.

(** Lines 20-39.  An exception inside the [catch] block is caught by
    nothing: the lines after the block do not run. *)
Definition _write (event : IServerSentEvent) : Async :=
  AwaitPublishEvent event (λ settled,
    let caught : option (option Error) :=
      match settled with
      | Resolved => Some None
      | Rejected ex =>
          match asError ex with
          | Some e => Some (Some e)
          | None => None
          end
      end in
    match caught with
    | None => Throw
    | Some err =>
        match err with
        | Some e => Callback (Some e) Done
        | None => Callback None Done
        end
    end).

(** What an observer of the sink and its publisher sees. *)
Inductive Observation :=
| PublishEventCalled (event : IServerSentEvent)
| PublishEventSettled (s : Settlement)
| CallbackInvoked (err : option Error)
| WriteRejected.

(** Run an [async] body against a publisher; [None] is a publish that
    never settles, which leaves the body suspended for good. *)
Fixpoint observe (publishEvent : IServerSentEvent → option Settlement)
    (p : Async) : list Observation :=
  match p with
  | Done => []
  | AwaitPublishEvent e k =>
      PublishEventCalled e ::
      match publishEvent e with
      | Some s => PublishEventSettled s :: observe publishEvent (k s)
      | None => []
      end
  | Callback err k => CallbackInvoked err :: observe publishEvent k
  | Throw => [WriteRejected]
  end.

Definition isCallback (o : Observation) : bool :=
  match o with
  | CallbackInvoked _ => true
  | _ => false
  end.

End ChannelWritable.

(** ** Channel resolution, as the specification words it *)

(** Keep the first occurrence of every element, drop the later ones. *)
Definition firstSeen (l : list string) : list string :=
  foldr (λ x acc, x :: filter (λ y, y ≠ x) acc) [] l.

(** Configured channels first, then the query values not among them, each
    once, in query order. *)
Definition resolvedBySpec (configured queryValues : list string) : list string :=
  configured ++ firstSeen (filter (λ v, v ∉ configured) queryValues).

(** ** Sample collaborators and requests *)

Module Sample.

Import Http.

(** A negotiator for single-valued [Accept] headers. *)
Definition accepts_types (h : option HeaderValue) (type : string) : bool :=
  match h with
  | None => true
  | Some (HStr s) => bool_decide (s = type) || bool_decide (s = "*/*")
  | Some (HArr l) => bool_decide (type ∈ l)
  end.

Definition flattenHttpHeaders (h : option HeaderValue) : option string :=
  match h with
  | None => None
  | Some (HStr s) => Some s
  | Some (HArr l) => Some (String.concat "," l)
  end.

(** A parser that knows three request targets. *)
Definition URL_searchParams (url base : string) : option (list (string * string)) :=
  if bool_decide (url = "/events?channel=a&x=y&channel=b&channel=a")
  then Some [("channel", "a"); ("x", "y"); ("channel", "b"); ("channel", "a")]
  else if bool_decide (url = "/events?room=a")
  then Some [("room", "a")]
  else if bool_decide (url = "/events") then Some []
  else None.

Definition encodeEvent (e : IServerSentEvent) : string :=
  "event: " +:+ event e +:+ LF +:+ "data: " +:+ data e +:+ LF +:+ LF.

Definition joinEncodedEvents (frames : list string) : string :=
  String.concat "" frames.

Definition KEEP_ALIVE_TIMEOUT : Z := 20.

Definition direct : RequestGrip :=
  {| isProxied := false; isSigned := false; needsSigned := false |}.
Definition proxied : RequestGrip :=
  {| isProxied := true; isSigned := true; needsSigned := true |}.
Definition unsigned : RequestGrip :=
  {| isProxied := true; isSigned := false; needsSigned := true |}.

Definition request (accept : string) (lastEventId : option string)
    (target : string) (g : option RequestGrip) : IncomingMessage :=
  {| headers :=
       let h : gmap string HeaderValue :=
         {[ "accept" := HStr accept; "host" := HStr "localhost" ]} in
       match lastEventId with
       | Some v => <["last-event-id" := HStr v]> h
       | None => h
       end;
     url := target;
     grip := g;
     req_statusCode := None |}.

Definition GripPublisherSpec : Type := string.

Definition connectGrip_run (cg : ConnectEventStream.ConnectGrip GripPublisherSpec)
    (r : IncomingMessage) : RequestGrip :=
  match headers r !! "grip-sig" with
  | Some _ => proxied
  | None => direct
  end.

Definition run :=
  ConnectEventStream.run accepts_types flattenHttpHeaders URL_searchParams
    encodeEvent joinEncodedEvents KEEP_ALIVE_TIMEOUT GripPublisherSpec
    connectGrip_run.

Definition unconfigured : ConnectEventStream.ConnectEventStream GripPublisherSpec :=
  ConnectEventStream.constructor ConnectEventStream.Null.

Definition configured : ConnectEventStream.ConnectEventStream GripPublisherSpec :=
  ConnectEventStream.constructor (ConnectEventStream.Spec "http://localhost:5561/").

Definition fromQuery (x : ChannelsFromQuery) : option IHandlerOptions :=
  Some {| channels := None; channelsFromQuery := Some x |}.

Definition eventStream : string := "text/event-stream".
Definition subscribeTarget : string := "/events?channel=a&x=y&channel=b&channel=a".

(** Requests used as concrete inputs below. *)
Definition subscribeRequest := request eventStream None subscribeTarget None.
Definition heldRequest := request eventStream None subscribeTarget (Some proxied).
Definition unsignedRequest := request eventStream None subscribeTarget (Some unsigned).
Definition bareRequest := request eventStream None "/events" (Some direct).
Definition undetectedRequest := request eventStream None "/events" None.
Definition jsonRequest := request "application/json" None subscribeTarget None.
Definition resumeErrorRequest :=
  request eventStream (Some "error") "no such target" (Some direct).
Definition jsonResumeErrorRequest :=
  request "application/json" (Some "error") subscribeTarget (Some direct).

End Sample.

(** ** The entry points around [run] *)

Module Routes.

Import Http ConnectEventStream.

(** A value passed to the overloaded entry points, as far as they tell
    values apart: [typeof x === 'string'], [Array.isArray(x)],
    [x instanceof IncomingMessage].  A request carries the [eventStream]
    slot of [EventStreamRequest]; [ArgOther] stands for [null], numbers,
    booleans and objects with neither option field. *)
#[local] Set Warnings "-register-all".

Inductive Arg :=
| ArgString (s : string)
| ArgArray (items : list Arg)
| ArgOptions (o : IHandlerOptions)
| ArgRequest (message : IncomingMessage) (eventStream : Arg)
| ArgResponse (response : ServerResponse)
| ArgFunction
| ArgUndefined
| ArgOther.

(** [xs.filter(x => typeof x === 'string')]. *)
Definition strings (xs : list Arg) : list string :=
  omap (λ x, match x with ArgString s => Some s | _ => None end) xs.

(** Lines 98-126.  The result is an options object made here, or
    [params[0]] as it came. *)
Definition parseParams (params : list Arg) : Arg :=
  let channels : option (list string) :=
    match params with
    | [] => Some []
    | ArgString _ :: _ => Some (strings params)
    | ArgArray items :: _ => Some (strings items)
    | _ => None
    end in
  match channels with
  | Some channels => ArgOptions {| channels := Some channels; channelsFromQuery := None |}
  | None => hd ArgUndefined params
  end.

(** What [run] finds behind [eventStreamOptions?.channels] and
    [eventStreamOptions?.channelsFromQuery]: the two fields of an options
    object, nothing on any other value. *)
Definition asOptions (v : Arg) : option IHandlerOptions :=
  match v with
  | ArgOptions o => Some o
  | _ => None
  end.

(** What a call of [route] comes to. *)
Inductive Routed :=
| Middleware (options : Arg)
| Executed (next : option Exn) (w : World)
| Promised (outcome : Exn + unit) (w : World)
| ReturnedUndefined
| OutsideOverloads.

Section Entry.

Variable accepts_types : option HeaderValue → string → bool.
Variable flattenHttpHeaders : option HeaderValue → option string.
Variable URL_searchParams : string → string → option (list (string * string)).
Variable encodeEvent : IServerSentEvent → string.
Variable joinEncodedEvents : list string → string.
Variable KEEP_ALIVE_TIMEOUT : Z.
Variable GripPublisherSpec : Type.
Variable connectGrip_run : ConnectGrip GripPublisherSpec → IncomingMessage → RequestGrip.

Local Abbreviation run :=
  (ConnectEventStream.run accepts_types flattenHttpHeaders URL_searchParams
     encodeEvent joinEncodedEvents KEEP_ALIVE_TIMEOUT GripPublisherSpec
     connectGrip_run).

(** Lines 86-93: the returned async handler, applied. *)
Definition createAsyncHandler (this : ConnectEventStream GripPublisherSpec)
    (params : list Arg) : M unit :=
  let options := parseParams params in
  run this (asOptions options).

(** Lines 170-181: [run] on the request's [eventStream] slot; whatever
    [run] throws is caught and handed to [fn], which otherwise is called
    without argument.  The first component is what [fn] receives. *)
Definition exec (this : ConnectEventStream GripPublisherSpec)
    (message : IncomingMessage) (eventStream : Arg)
    (response : ServerResponse) : option Exn * World :=
  match run this (asOptions eventStream)
          {| req := message; res := response; calls := [] |} with
  | (inl ex, w) => (Some ex, w)
  | (inr _, w) => (None, w)
  end.

(** Lines 160-164: the middleware [route] returns for configuration
    data, applied; it overwrites the slot before [exec] reads it. *)
Definition middleware (this : ConnectEventStream GripPublisherSpec) (options : Arg)
    (message : IncomingMessage) (eventStream : Arg)
    (response : ServerResponse) : option Exn * World :=
  let eventStream := options in
  exec this message eventStream response.

(** Lines 133-168.  The second argument of a call on a request is the
    response, as every overload has it; other shapes are
    [OutsideOverloads]. *)
Definition route (this : ConnectEventStream GripPublisherSpec)
    (params : list Arg) : Routed :=
  match params with
  | ArgRequest message eventStream :: rest =>
      match rest with
      | [ArgResponse response; _] =>
          let '(next, w) := exec this message eventStream response in
          Executed next w
      | [ArgResponse response] =>
          let '(outcome, w) :=
            run this None {| req := message; res := response; calls := [] |} in
          Promised outcome w
      | [_; _] | [_] => OutsideOverloads
      | _ => ReturnedUndefined
      end
  | _ => Middleware (parseParams params)
  end.

End Entry.

End Routes.

(** ** Well-formed caches of channel writables *)

(** Every stored value is a reference to a writable built for the name
    it is stored under. *)
Definition cacheWellFormed {GripPublisherSpec : Type}
    (st : ConnectEventStream.ConnectEventStream GripPublisherSpec * ConnectEventStream.Heap) : Prop :=
  ∀ channel v,
    ConnectEventStream._channelWritables st.1 !! channel = Some v →
    ∃ address,
      v = ConnectEventStream.ChannelWritableRef address ∧
      st.2 !! address = Some channel.

(** The state after asking for a list of channels in turn. *)
Definition afterCalls {GripPublisherSpec : Type} (channels : list string)
    (st : ConnectEventStream.ConnectEventStream GripPublisherSpec * ConnectEventStream.Heap)
    : ConnectEventStream.ConnectEventStream GripPublisherSpec * ConnectEventStream.Heap :=
  fold_left (λ st channel, (ConnectEventStream.getChannelWritable channel st).2) channels st.

(** ** Sample calls of the entry points *)

Module SampleRoutes.

Import Http ConnectEventStream Routes.

Definition exec :=
  Routes.exec Sample.accepts_types Sample.flattenHttpHeaders Sample.URL_searchParams
    Sample.encodeEvent Sample.joinEncodedEvents Sample.KEEP_ALIVE_TIMEOUT
    Sample.GripPublisherSpec Sample.connectGrip_run.

Definition route :=
  Routes.route Sample.accepts_types Sample.flattenHttpHeaders Sample.URL_searchParams
    Sample.encodeEvent Sample.joinEncodedEvents Sample.KEEP_ALIVE_TIMEOUT
    Sample.GripPublisherSpec Sample.connectGrip_run.

(** Options with one configured channel and no query-sourcing. *)
Definition roomOnly : option IHandlerOptions :=
  Some {| channels := Some ["room"]; channelsFromQuery := None |}.

(** Options that read the channels under [room]. *)
Definition fromRoom (configured : option (list string)) : option IHandlerOptions :=
  Some {| channels := configured; channelsFromQuery := Some (FromQueryName "room") |}.

(** A request the sample parser refuses. *)
Definition strayRequest :=
  Sample.request Sample.eventStream None "no such target" (Some Sample.direct).

(** A new handler, with no writable yet. *)
Definition newCache : ConnectEventStream Sample.GripPublisherSpec * Heap :=
  (Sample.unconfigured, []).

End SampleRoutes.

(** * Properties *)

(** Peel the monad off a goal about [run]. *)
Ltac unfold_run :=
  unfold ConnectEventStream.run, arrive, res_setStatusCode, res_end, res_write,
    res_setHeader, req_setStatusCode, req_setGrip, call, modifyRes, modifyReq,
    tryRes, getReq, liftE, throw, mbind, mret, M_bind, M_ret; simpl.

(** Refute membership of a call in an explicit log. *)
Ltac absent_from_log H :=
  repeat (apply elem_of_cons in H as [H | H]; [discriminate H|]);
  by apply elem_of_nil in H.

Section Run.

Import Http ConnectEventStream.

Variable accepts_types : option HeaderValue → string → bool.
Variable flattenHttpHeaders : option HeaderValue → option string.
Variable URL_searchParams : string → string → option (list (string * string)).
Variable encodeEvent : IServerSentEvent → string.
Variable joinEncodedEvents : list string → string.
Variable KEEP_ALIVE_TIMEOUT : Z.
Variable GripPublisherSpec : Type.
Variable connectGrip_run : ConnectGrip GripPublisherSpec → IncomingMessage → RequestGrip.

Local Abbreviation run :=
  (ConnectEventStream.run accepts_types flattenHttpHeaders URL_searchParams
     encodeEvent joinEncodedEvents KEEP_ALIVE_TIMEOUT GripPublisherSpec
     connectGrip_run).
Local Abbreviation resolveChannels := (ConnectEventStream.resolveChannels URL_searchParams).
Local Abbreviation hasFlags := (ConnectEventStream.hasFlags connectGrip_run).
Local Abbreviation accepted r :=
  (accepts_types (headers r !! "accept") "text/event-stream" = true).
Local Abbreviation lastEventId r := (flattenHttpHeaders (headers r !! "last-event-id")).

Implicit Types (this : ConnectEventStream GripPublisherSpec)
  (o : option IHandlerOptions) (r : IncomingMessage) (g : RequestGrip).

(** The world after negotiation and proxy detection have gone through. *)
Lemma run_past_detection this o r g :
  accepted r → hasFlags this r g →
  run this o (arrive r) =
    let w := {| req := withGrip r g; res := freshResponse; calls := detectionCalls r |} in
    if isProxied g && (needsSigned g && negb (isSigned g)) then
      (inr tt, {| req := {| headers := headers r; url := url r; grip := Some g;
                            req_statusCode := Some 403 |};
                  res := endedWith 200 ("GRIP Signature Invalid." +:+ LF);
                  calls := detectionCalls r ++ [ResEnd (Some ("GRIP Signature Invalid." +:+ LF))] |})
    else if bool_decide (lastEventId r = Some "error") then
      (inr tt, {| req := withGrip r g;
                  res := endedWith 400 ("last-event-id header may not be 'error'." +:+ LF);
                  calls := detectionCalls r ++
                           [ResEnd (Some ("last-event-id header may not be 'error'." +:+ LF))] |})
    else
      match resolveChannels o r with
      | inl e => (inl e, w)
      | inr [] =>
          (inr tt, {| req := withGrip r g;
                      res := endedWith 400 (noChannelsMessage o +:+ LF);
                      calls := detectionCalls r ++
                               [ResEnd (Some (noChannelsMessage o +:+ LF))] |})
      | inr channels =>
          if isProxied g then
            (inr tt, {| req := withGrip r g;
                        res := endedWith 200 (handshake encodeEvent joinEncodedEvents);
                        calls := detectionCalls r ++
                                 holdCalls encodeEvent joinEncodedEvents KEEP_ALIVE_TIMEOUT channels |})
          else
            (inr tt, {| req := withGrip r g;
                        res := {| statusCode := 200;
                                  res_headers := [("Connection", "Transfer-Encoding");
                                                  ("Transfer-Encoding", "chunked")];
                                  headSent := Some 200;
                                  chunks := [handshake encodeEvent joinEncodedEvents];
                                  finished := false |};
                        calls := detectionCalls r ++
                                 pipeCalls encodeEvent joinEncodedEvents channels |})
      end.
Proof.
  intros Hacc Hflags. unfold_run. rewrite Hacc. simpl.
  unfold withGrip, detectionCalls.
  destruct Hflags as [Hg | (Hg & cg & Hcg & Hrun)]; rewrite Hg; simpl.
  - destruct (isProxied g && (needsSigned g && negb (isSigned g))) eqn:Hsig; simpl.
    + destruct r; simpl in *. by subst.
    + destruct (bool_decide _); simpl; [done|].
      destruct (resolveChannels o r) as [e|[|c cs]]; simpl; [done..|].
      by destruct (isProxied g).
  - rewrite Hcg. simpl. rewrite Hrun.
    destruct (isProxied g && (needsSigned g && negb (isSigned g))) eqn:Hsig; simpl; [done|].
    destruct (bool_decide _); simpl; [done|].
    destruct (resolveChannels o r) as [e|[|c cs]]; simpl; [done..|].
    by destruct (isProxied g).
Qed.

(** Three of the ways through [run] once detection has gone through. *)

Lemma run_unsigned this o r g :
  accepted r → hasFlags this r g →
  isProxied g = true → needsSigned g = true → isSigned g = false →
  run this o (arrive r) =
    (inr tt, {| req := {| headers := headers r; url := url r; grip := Some g;
                          req_statusCode := Some 403 |};
                res := endedWith 200 ("GRIP Signature Invalid." +:+ LF);
                calls := detectionCalls r ++
                         [ResEnd (Some ("GRIP Signature Invalid." +:+ LF))] |}).
Proof.
  intros Hacc Hflags Hp Hn Hs.
  rewrite (run_past_detection _ _ _ g Hacc Hflags). by rewrite Hp, Hn, Hs.
Qed.

Lemma run_no_channels this o r g :
  accepted r → hasFlags this r g → signatureInOrder g →
  lastEventId r ≠ Some "error" →
  resolveChannels o r = inr [] →
  run this o (arrive r) =
    (inr tt, {| req := withGrip r g;
                res := endedWith 400 (noChannelsMessage o +:+ LF);
                calls := detectionCalls r ++
                         [ResEnd (Some (noChannelsMessage o +:+ LF))] |}).
Proof.
  intros Hacc Hflags Hsig Hid Hch.
  rewrite (run_past_detection _ _ _ g Hacc Hflags). simpl.
  rewrite Hsig, Hch. by rewrite bool_decide_eq_false_2.
Qed.

Lemma run_accepted this o r g channels :
  accepted r → hasFlags this r g → signatureInOrder g →
  lastEventId r ≠ Some "error" →
  resolveChannels o r = inr channels → channels ≠ [] →
  run this o (arrive r) =
    (inr tt,
     {| req := withGrip r g;
        res := if isProxied g
               then endedWith 200 (handshake encodeEvent joinEncodedEvents)
               else {| statusCode := 200;
                       res_headers := [("Connection", "Transfer-Encoding");
                                       ("Transfer-Encoding", "chunked")];
                       headSent := Some 200;
                       chunks := [handshake encodeEvent joinEncodedEvents];
                       finished := false |};
        calls := detectionCalls r ++
                 if isProxied g
                 then holdCalls encodeEvent joinEncodedEvents KEEP_ALIVE_TIMEOUT channels
                 else pipeCalls encodeEvent joinEncodedEvents channels |}).
Proof.
  intros Hacc Hflags Hsig Hid Hch Hne.
  rewrite (run_past_detection _ _ _ g Hacc Hflags). simpl.
  rewrite Hsig, Hch, bool_decide_eq_false_2 by done.
  destruct channels; [done|]. by destruct (isProxied g).
Qed.

(** ** The terminal answers *)

(** C1.  A proxied request that needs a signature and has none, once
    past negotiation, gets its response ended with the body
    [GRIP Signature Invalid.] and nothing else is called; but line 207
    writes the 403 on the request object, so the response still carries
    the status it started with and the code on the wire is 200. *)
Theorem unsigned_request_answered_with_200 this o r g :
  accepted r → hasFlags this r g →
  isProxied g = true → needsSigned g = true → isSigned g = false →
  let w := (run this o (arrive r)).2 in
  (run this o (arrive r)).1 = inr tt ∧
  finished (res w) = true ∧
  headSent (res w) = Some 200 ∧
  statusCode (res w) = 200 ∧
  req_statusCode (req w) = Some 403 ∧
  calls w = detectionCalls r ++ [ResEnd (Some ("GRIP Signature Invalid." +:+ LF))].
Proof.
  intros Hacc Hflags Hp Hn Hs.
  by rewrite (run_unsigned _ o _ g Hacc Hflags Hp Hn Hs).
Qed.

(** C2.  With [channelsFromQuery: true] and no channel resolved, the
    request is answered 400, the parameter that was read is [channel],
    and the body spells the flag instead: [?true query parameter]. *)
Theorem no_channels_message_spells_the_flag this r g configured :
  let o := Some {| channels := configured;
                   channelsFromQuery := Some (FromQueryBool true) |} in
  accepted r → hasFlags this r g → signatureInOrder g →
  lastEventId r ≠ Some "error" →
  resolveChannels o r = inr [] →
  channelParamName o = "channel" ∧
  run this o (arrive r) =
    (inr tt,
     {| req := withGrip r g;
        res := endedWith 400
                 ("No specified channels. Specify the channels to read from using the ?true query parameter."
                  +:+ LF);
        calls := detectionCalls r ++
                 [ResEnd (Some ("No specified channels. Specify the channels to read from using the ?true query parameter."
                                +:+ LF))] |}).
Proof.
  intros o Hacc Hflags Hsig Hid Hch. split; [done|].
  by rewrite (run_no_channels _ o _ g Hacc Hflags Hsig Hid Hch).
Qed.

(** The accepted path, whatever status the response object came with. *)
Lemma run_accepted_under (incoming : Z) this o r g channels :
  accepted r → hasFlags this r g → signatureInOrder g →
  lastEventId r ≠ Some "error" →
  resolveChannels o r = inr channels → channels ≠ [] →
  run this o {| req := r; res := setStatusCode incoming freshResponse; calls := [] |} =
    (inr tt,
     {| req := withGrip r g;
        res := if isProxied g
               then endedWith 200 (handshake encodeEvent joinEncodedEvents)
               else {| statusCode := 200;
                       res_headers := [("Connection", "Transfer-Encoding");
                                       ("Transfer-Encoding", "chunked")];
                       headSent := Some 200;
                       chunks := [handshake encodeEvent joinEncodedEvents];
                       finished := false |};
        calls := detectionCalls r ++
                 if isProxied g
                 then holdCalls encodeEvent joinEncodedEvents KEEP_ALIVE_TIMEOUT channels
                 else pipeCalls encodeEvent joinEncodedEvents channels |}).
Proof.
  intros Hacc Hflags Hsig Hid Hch Hne. unfold signatureInOrder in Hsig.
  unfold_run. rewrite Hacc. simpl.
  unfold withGrip, detectionCalls.
  destruct Hflags as [Hg | (Hg & cg & Hcg & Hrun)]; rewrite Hg; simpl.
  - rewrite Hsig. simpl. rewrite bool_decide_eq_false_2 by done. simpl.
    rewrite Hch. simpl. destruct channels as [|c cs]; [done|]. simpl.
    by destruct (isProxied g).
  - rewrite Hcg. simpl. rewrite Hrun, Hsig. simpl.
    rewrite bool_decide_eq_false_2 by done. simpl.
    rewrite Hch. simpl. destruct channels as [|c cs]; [done|]. simpl.
    by destruct (isProxied g).
Qed.

(** C4.  An accepted subscription request gets status 200, whatever
    status the response object came with, and the handshake, the join
    of the one encoded [stream-open] event with empty data, as the first
    and only chunk written by [run]; in proxy mode the response is then
    ended, in direct mode the subscription is created and piped after
    the write. *)
Theorem accepted_request_gets_one_stream_open this o r g channels (incoming : Z) :
  accepted r → hasFlags this r g → signatureInOrder g →
  lastEventId r ≠ Some "error" →
  resolveChannels o r = inr channels → channels ≠ [] →
  let outcome :=
    run this o {| req := r; res := setStatusCode incoming freshResponse; calls := [] |} in
  let w := outcome.2 in
  outcome.1 = inr tt ∧
  statusCode (res w) = 200 ∧
  headSent (res w) = Some 200 ∧
  chunks (res w) = [joinEncodedEvents [encodeEvent streamOpen]] ∧
  event streamOpen = "stream-open" ∧ data streamOpen = "" ∧
  calls w =
    detectionCalls r ++
    if isProxied g
    then [ StartInstruct; SetHoldStream; AddChannel channels;
           SetKeepAlive (encodeEvent keepAlive) KEEP_ALIVE_TIMEOUT; ToHeaders;
           ResWrite (joinEncodedEvents [encodeEvent streamOpen]);
           ResEnd None ]
    else [ ResSetHeader "Connection" "Transfer-Encoding";
           ResSetHeader "Transfer-Encoding" "chunked";
           ResWrite (joinEncodedEvents [encodeEvent streamOpen]);
           NewAddressedEventsReadable channels; PipeSerializer; PipeResponse ].
Proof.
  intros Hacc Hflags Hsig Hid Hch Hne outcome w. unfold w, outcome.
  rewrite (run_accepted_under incoming _ o _ g channels Hacc Hflags Hsig Hid Hch Hne).
  by destruct (isProxied g).
Qed.

(** C5, amended.  A request that is past negotiation, proxy detection
    and the signature check and whose flattened [last-event-id] is
    [error] is answered 400 with no channel resolved: the outcome holds
    for every choice of options and does not consult the URL. *)
Theorem resume_error_answered_400 this o r g :
  accepted r → hasFlags this r g → signatureInOrder g →
  lastEventId r = Some "error" →
  run this o (arrive r) =
    (inr tt, {| req := withGrip r g;
                res := endedWith 400 ("last-event-id header may not be 'error'." +:+ LF);
                calls := detectionCalls r ++
                         [ResEnd (Some ("last-event-id header may not be 'error'." +:+ LF))] |}).
Proof.
  intros Hacc Hflags Hsig Hid.
  rewrite (run_past_detection _ _ _ g Hacc Hflags). simpl.
  rewrite Hsig. by rewrite bool_decide_eq_true_2.
Qed.

(** C6.  A request whose [Accept] header the negotiator does not match
    with [text/event-stream] is answered 406 with the body
    [Not Acceptable.]; the request is left as it came (no flags
    detected) and ending the response is the only call made. *)
Theorem unacceptable_request_answered_406 this o r :
  accepts_types (headers r !! "accept") "text/event-stream" = false →
  run this o (arrive r) =
    (inr tt, {| req := r;
                res := endedWith 406 ("Not Acceptable." +:+ LF);
                calls := [ResEnd (Some ("Not Acceptable." +:+ LF))] |}).
Proof.
  intros Hacc. unfold_run.
  rewrite Hacc. simpl. reflexivity.
Qed.

(** C8.  An accepted proxied request: the hold is started on the
    resolved channels, the encoded [keep-alive] event with empty data is
    set as its keep-alive with the fixed timeout, the handshake is
    written and the response ended right after; no
    [AddressedEventsReadable] is created. *)
Theorem proxied_request_is_held this o r g channels :
  accepted r → hasFlags this r g → signatureInOrder g →
  lastEventId r ≠ Some "error" →
  resolveChannels o r = inr channels → channels ≠ [] →
  isProxied g = true →
  let w := (run this o (arrive r)).2 in
  (run this o (arrive r)).1 = inr tt ∧
  calls w =
    detectionCalls r ++
    [ StartInstruct; SetHoldStream; AddChannel channels;
      SetKeepAlive (encodeEvent keepAlive) KEEP_ALIVE_TIMEOUT; ToHeaders;
      ResWrite (joinEncodedEvents [encodeEvent streamOpen]);
      ResEnd None ] ∧
  event keepAlive = "keep-alive" ∧ data keepAlive = "" ∧
  finished (res w) = true ∧
  (∀ cs, NewAddressedEventsReadable cs ∉ calls w).
Proof.
  intros Hacc Hflags Hsig Hid Hch Hne Hp.
  rewrite (run_accepted _ o _ g channels Hacc Hflags Hsig Hid Hch Hne), Hp.
  simpl. repeat split; try done.
  intros cs Hin. apply elem_of_app in Hin as [Hin | Hin].
  - unfold detectionCalls in Hin. destruct (grip r); absent_from_log Hin.
  - absent_from_log Hin.
Qed.

(** C9.  A handler built from [null] has no [connectGrip]; run on a
    request that passes negotiation and carries no [grip], it throws
    the [TypeError] of the dereference and leaves request, response and
    log untouched.  Conversely a run that returns had [grip] on the
    request or [connectGrip] on the handler, and the constructor leaves
    [connectGrip] unassigned for [null] only. *)
Theorem detection_throws_without_configuration o r :
  accepted r → grip r = None →
  connectGrip (constructor (@Null GripPublisherSpec)) = None ∧
  run (constructor Null) o (arrive r) =
    (inl (TypeError "Cannot read properties of undefined (reading 'run')"), arrive r) ∧
  (∀ this, connectGrip this = None →
     run this o (arrive r) =
       (inl (TypeError "Cannot read properties of undefined (reading 'run')"), arrive r)) ∧
  (∀ this w, run this o (arrive r) = (inr tt, w) → is_Some (connectGrip this)) ∧
  (∀ params : Params GripPublisherSpec,
     is_Some (connectGrip (constructor params)) ↔ params ≠ Null).
Proof.
  intros Hacc Hg.
  assert (Hthrow : ∀ this, connectGrip this = None →
    run this o (arrive r) =
      (inl (TypeError "Cannot read properties of undefined (reading 'run')"), arrive r)).
  { intros this Hcg. unfold_run. by rewrite Hacc, Hg, Hcg. }
  split; [done|]. split; [by apply Hthrow|]. split; [done|]. split.
  - intros this w Hrun. destruct (connectGrip this) eqn:Hcg; [by eexists|].
    rewrite (Hthrow this Hcg) in Hrun. discriminate.
  - intros [|s|[[gp|] p]]; simpl; split; intros H;
      try done; try (by eexists); by destruct H.
Qed.

End Run.

(** ** Channel resolution *)

Section ResolveChannels.

Import Http ConnectEventStream.

Lemma firstSeen_cons x l :
  firstSeen (x :: l) = x :: filter (λ y, y ≠ x) (firstSeen l).
Proof. reflexivity. Qed.

Lemma firstSeen_filter (P : string → Prop) `{!∀ x, Decision (P x)} l :
  firstSeen (filter P l) = filter P (firstSeen l).
Proof.
  induction l as [|x l IH]; [done|].
  rewrite firstSeen_cons. destruct (decide (P x)) as [HP | HP].
  - rewrite !filter_cons_True by done. rewrite firstSeen_cons, IH.
    f_equal. rewrite !list_filter_filter. apply list_filter_iff. naive_solver.
  - rewrite !filter_cons_False by done. rewrite IH.
    rewrite list_filter_filter. apply list_filter_iff.
    intros y. split; [|naive_solver]. intros Hy. split; [done|]. by intros ->.
Qed.

Lemma firstSeen_elem_of l v : v ∈ firstSeen l ↔ v ∈ l.
Proof.
  induction l as [|x l IH]; [done|].
  rewrite firstSeen_cons, !elem_of_cons, list_elem_of_filter, IH.
  destruct (decide (v = x)); naive_solver.
Qed.

Lemma firstSeen_NoDup l : NoDup (firstSeen l).
Proof.
  induction l as [|x l IH]; [constructor|].
  rewrite firstSeen_cons. apply NoDup_cons. split.
  - rewrite list_elem_of_filter. naive_solver.
  - by apply NoDup_filter.
Qed.

Lemma firstSeen_sublist l : firstSeen l `sublist_of` l.
Proof.
  induction l as [|x l IH]; [done|].
  rewrite firstSeen_cons. apply sublist_skip.
  etrans; [apply sublist_filter | done].
Qed.

(** The loop of lines 231-235 against the wording. *)
Lemma merge_loop_first_seen values channels :
  fold_left pushUnique values channels = resolvedBySpec channels values.
Proof.
  unfold resolvedBySpec.
  revert channels. induction values as [|v values IH]; intros channels; simpl.
  - by rewrite app_nil_r.
  - unfold pushUnique at 2. case_bool_decide as Hin.
    + rewrite IH. by rewrite filter_cons_False by naive_solver.
    + rewrite IH, filter_cons_True by done.
      rewrite firstSeen_cons, <- firstSeen_filter, <- app_assoc. simpl.
      do 3 f_equal. rewrite list_filter_filter. apply list_filter_iff.
      intros y. rewrite elem_of_app, list_elem_of_singleton. naive_solver.
Qed.

Variable URL_searchParams : string → string → option (list (string * string)).

(** C7.  With [configured] the [channels] of the options (none when
    absent): the resolved list is [configured] alone when it is not
    empty and [channelsFromQuery] is absent or [false]; otherwise it is
    [configured] followed by the values of the query parameter (the
    name given as [channelsFromQuery], [channel] when that is no name)
    that are not in [configured], each once, in the order they first
    appear. *)
Theorem resolved_channels_keep_first_seen_order o r :
  let configured := default [] (o ≫= channels) in
  let name :=
    match o ≫= channelsFromQuery with
    | Some (FromQueryName name) => name
    | _ => "channel"
    end in
  let querySourcing :=
    match o ≫= channelsFromQuery with
    | Some (FromQueryBool false) | None => false
    | Some _ => true
    end in
  resolveChannels URL_searchParams o r =
    (if bool_decide (configured = []) || querySourcing then
       match URL_searchParams (url r) ("http://" +:+ template (headers r !! "host")) with
       | Some searchParams =>
           inr (configured ++
                firstSeen (filter (λ v, v ∉ configured) (getAll name searchParams)))
       | None => inl (TypeError "Invalid URL")
       end
     else inr configured) ∧
  channelParamName o = name ∧
  ∀ values,
    let appended := firstSeen (filter (λ v, v ∉ configured) values) in
    resolvedBySpec configured values = configured ++ appended ∧
    NoDup appended ∧
    appended `sublist_of` values ∧
    ∀ v, v ∈ appended ↔ v ∈ values ∧ v ∉ configured.
Proof.
  intros configured name querySourcing.
  assert (Hname : channelParamName o = name).
  { unfold channelParamName, readChannelsFromQuery, name.
    by destruct (o ≫= channelsFromQuery) as [[]|]. }
  assert (Hsourcing : isNotFalse (readChannelsFromQuery o) = querySourcing).
  { unfold readChannelsFromQuery, querySourcing.
    by destruct (o ≫= channelsFromQuery) as [[[]|]|]. }
  split; [|split; [done|]].
  - unfold resolveChannels, readsQuery, configuredChannels. fold configured.
    rewrite Hname, Hsourcing.
    replace (bool_decide (length configured = 0%nat))
      with (bool_decide (configured = [])).
    + destruct (_ || _); [|done].
      destruct (URL_searchParams _ _); [|done].
      by rewrite merge_loop_first_seen.
    + apply bool_decide_ext. by destruct configured.
  - intros values appended. split; [done|]. split; [apply firstSeen_NoDup|].
    split.
    + etrans; [apply firstSeen_sublist | apply sublist_filter].
    + intros v. unfold appended.
      rewrite firstSeen_elem_of, list_elem_of_filter. naive_solver.
Qed.

End ResolveChannels.

(** ** The publish sink *)

Section PublishSink.

Import ChannelWritable.

Variable publishEvent : IServerSentEvent → option Settlement.

(** What one [_write] looks like from outside. *)
Lemma observe_write event :
  observe publishEvent (_write event) =
    PublishEventCalled event ::
    match publishEvent event with
    | Some Resolved => [PublishEventSettled Resolved; CallbackInvoked None]
    | Some (Rejected ex) =>
        [PublishEventSettled (Rejected ex);
         match asError ex with
         | Some e => CallbackInvoked (Some e)
         | None => WriteRejected
         end]
    | None => []
    end.
Proof.
  simpl. destruct (publishEvent event) as [[|ex]|]; [done| |done].
  by destruct ex.
Qed.

(** What holds of every write: the callback is invoked without an error
    exactly when [publishEvent] resolved, and with an error exactly when
    it rejected with a value an [Error] can be had from: the rejection
    itself when that is an [Error], otherwise an [Error] made from it.
    It is invoked at most once, only after the settlement, and not at
    all while the publish is pending. *)
Lemma write_completes_as_publish_settles event :
  let trace := observe publishEvent (_write event) in
  (CallbackInvoked None ∈ trace ↔ publishEvent event = Some Resolved) ∧
  (∀ err, CallbackInvoked (Some err) ∈ trace ↔
          ∃ ex, publishEvent event = Some (Rejected ex) ∧ asError ex = Some err) ∧
  (∀ e, asError (ThrownError e) = Some e) ∧
  (∀ s, message <$> asError (ThrownOther s) = Some s) ∧
  (∀ pre err post, trace = pre ++ CallbackInvoked err :: post →
                   ∃ s, publishEvent event = Some s ∧ PublishEventSettled s ∈ pre) ∧
  (publishEvent event = None → trace = [PublishEventCalled event]) ∧
  (length (filter isCallback trace) ≤ 1)%nat.
Proof.
  intros trace. unfold trace. rewrite observe_write.
  destruct (publishEvent event) as [[|ex]|] eqn:Hsettled; split_and!;
    try done; try (simpl; lia).
  - split; [done|]. intros _. rewrite !elem_of_cons. auto.
  - intros err. split; [intros H; absent_from_log H|].
    intros (ex & Hex & _). discriminate.
  - intros [|o1 [|o2 [|o3 pre]]] err post H; simplify_eq/=.
    + exists Resolved. split; [done|]. rewrite !elem_of_cons. auto.
    + by destruct pre.
  - split; [|discriminate]. intros H. destruct (asError ex); absent_from_log H.
  - intros err. split.
    + intros H. exists ex. split; [done|].
      destruct (asError ex) as [e|];
        repeat (apply elem_of_cons in H as [H | H]; [by simplify_eq|]);
        by apply elem_of_nil in H.
    + intros (ex' & Hex & Herr). simplify_eq. rewrite Herr, !elem_of_cons. auto.
  - intros [|o1 [|o2 [|o3 pre]]] err post H; simplify_eq/=.
    + exists (Rejected ex). split; [done|]. rewrite !elem_of_cons. auto.
    + by destruct pre.
  - destruct (asError ex); simpl; lia.
  - split; [intros H; absent_from_log H | discriminate].
  - intros err. split; [intros H; absent_from_log H|].
    intros (ex & Hex & _). discriminate.
  - intros [|o1 [|o2 pre]] err post H; simplify_eq/=.
Qed.

(** C3.  When [publishEvent] rejects with a value that has no string
    conversion, [new Error(ex)] on line 27 throws inside the [catch]
    block: the publish has failed, the promise of [_write] rejects, and
    the callback of the write is not invoked, with or without an
    error. *)
Theorem unconvertible_rejection_leaves_the_write_pending event :
  publishEvent event = Some (Rejected ThrownUnconvertible) →
  observe publishEvent (_write event) =
    [ PublishEventCalled event;
      PublishEventSettled (Rejected ThrownUnconvertible);
      WriteRejected ] ∧
  ∀ err, CallbackInvoked err ∉ observe publishEvent (_write event).
Proof.
  intros Hrejected. rewrite observe_write, Hrejected. simpl.
  split; [done|]. intros err Hin. absent_from_log Hin.
Qed.

End PublishSink.

(** ** The cache of channel writables *)

Section ChannelWritables.

Import ConnectEventStream.

Context {GripPublisherSpec : Type}.
Implicit Types (this : ConnectEventStream GripPublisherSpec) (heap : Heap).

(** A name that is neither stored nor inherited: the writable is
    constructed, stored, and found again by the next call. *)
Lemma getChannelWritable_first_call channel this heap :
  _channelWritables this !! channel = None → channel ∉ objectPrototype →
  ∃ this',
    getChannelWritable channel (this, heap)
      = (ChannelWritableRef (length heap), (this', heap ++ [channel])) ∧
    _channelWritables this' !! channel = Some (ChannelWritableRef (length heap)) ∧
    getChannelWritable channel (this', heap ++ [channel])
      = (ChannelWritableRef (length heap), (this', heap ++ [channel])).
Proof.
  intros Hown Hproto.
  exists {| connectGrip := connectGrip this; prefix := prefix this;
            _channelWritables :=
              <[channel := ChannelWritableRef (length heap)]> (_channelWritables this) |}.
  unfold getChannelWritable, getProperty. simpl.
  rewrite Hown, bool_decide_eq_false_2, lookup_insert_eq by done. done.
Qed.

(** Whatever the name, a second call returns what the first returned
    and changes nothing. *)
Lemma getChannelWritable_second_call channel (st : ConnectEventStream GripPublisherSpec * Heap) :
  getChannelWritable channel (getChannelWritable channel st).2
    = ((getChannelWritable channel st).1, (getChannelWritable channel st).2).
Proof.
  destruct st as [this heap]. unfold getChannelWritable at 2 3 4.
  destruct (getProperty _ _) as [v|] eqn:Hget; simpl.
  - unfold getChannelWritable. by rewrite Hget.
  - unfold getChannelWritable, getProperty. simpl. by rewrite lookup_insert_eq.
Qed.

(** C10.  On a name inherited from [Object.prototype] the lookup of
    line 77 is not [null]: no [ChannelWritable] is constructed or
    stored, and the inherited member is what comes back. *)
Theorem inherited_name_yields_no_writable (params : Params GripPublisherSpec) heap :
  getChannelWritable "constructor" (constructor params, heap)
    = (Inherited "constructor", (constructor params, heap)) ∧
  _channelWritables (constructor params) !! "constructor" = None.
Proof.
  assert (Hown : _channelWritables (constructor params) !! "constructor" = None).
  { destruct params as [|s|[[g|] p]]; apply lookup_empty. }
  split; [|done].
  unfold getChannelWritable, getProperty. rewrite Hown.
  by rewrite bool_decide_eq_true_2 by (unfold objectPrototype; apply elem_of_cons; auto).
Qed.

End ChannelWritables.

(** ** The statements at concrete requests *)

Section Instances.

Import Http ConnectEventStream.

Local Abbreviation at_sample thm :=
  (thm Sample.accepts_types Sample.flattenHttpHeaders Sample.URL_searchParams
       Sample.encodeEvent Sample.joinEncodedEvents Sample.KEEP_ALIVE_TIMEOUT
       Sample.GripPublisherSpec Sample.connectGrip_run).

Local Abbreviation outcome o r := (Sample.run Sample.configured o (arrive r)).
Local Abbreviation accepted r :=
  (Sample.accepts_types (headers r !! "accept") "text/event-stream" = true).
Local Abbreviation lastEventId r :=
  (Sample.flattenHttpHeaders (headers r !! "last-event-id")).
Local Abbreviation hasFlags := (ConnectEventStream.hasFlags Sample.connectGrip_run).
Local Abbreviation resolveChannels :=
  (ConnectEventStream.resolveChannels Sample.URL_searchParams).

(** C1 at a signed-required, unsigned request through a proxy. *)
Lemma unsigned_request_answered_with_200_witness :
  accepted Sample.unsignedRequest ∧
  hasFlags Sample.configured Sample.unsignedRequest Sample.unsigned ∧
  (outcome None Sample.unsignedRequest).1 = inr tt ∧
  finished (res (outcome None Sample.unsignedRequest).2) = true ∧
  headSent (res (outcome None Sample.unsignedRequest).2) = Some 200 ∧
  statusCode (res (outcome None Sample.unsignedRequest).2) = 200 ∧
  req_statusCode (req (outcome None Sample.unsignedRequest).2) = Some 403 ∧
  calls (outcome None Sample.unsignedRequest).2
    = [ResEnd (Some ("GRIP Signature Invalid." +:+ LF))].
Proof.
  assert (Hacc : accepted Sample.unsignedRequest) by reflexivity.
  assert (Hflags : hasFlags Sample.configured Sample.unsignedRequest Sample.unsigned)
    by (left; reflexivity).
  exact (conj Hacc (conj Hflags
    (at_sample unsigned_request_answered_with_200
       Sample.configured None Sample.unsignedRequest Sample.unsigned
       Hacc Hflags eq_refl eq_refl eq_refl))).
Defined.

(** C2 at a request without channels, query-sourcing switched on by [true]. *)
Lemma no_channels_message_spells_the_flag_witness :
  accepted Sample.bareRequest ∧
  lastEventId Sample.bareRequest ≠ Some "error" ∧
  resolveChannels (Sample.fromQuery (FromQueryBool true)) Sample.bareRequest = inr [] ∧
  channelParamName (Sample.fromQuery (FromQueryBool true)) = "channel" ∧
  outcome (Sample.fromQuery (FromQueryBool true)) Sample.bareRequest =
    (inr tt,
     {| req := Sample.bareRequest;
        res := endedWith 400
                 ("No specified channels. Specify the channels to read from using the ?true query parameter."
                  +:+ LF);
        calls := [ResEnd (Some ("No specified channels. Specify the channels to read from using the ?true query parameter."
                                +:+ LF))] |}).
Proof.
  assert (Hacc : accepted Sample.bareRequest) by reflexivity.
  assert (Hflags : hasFlags Sample.configured Sample.bareRequest Sample.direct)
    by (left; reflexivity).
  assert (Hid : lastEventId Sample.bareRequest ≠ Some "error") by discriminate.
  assert (Hch : resolveChannels (Sample.fromQuery (FromQueryBool true))
                  Sample.bareRequest = inr []) by reflexivity.
  exact (conj Hacc (conj Hid (conj Hch
    (at_sample no_channels_message_spells_the_flag
       Sample.configured Sample.bareRequest Sample.direct None
       Hacc Hflags eq_refl Hid Hch)))).
Defined.

(** C3 at a publisher that rejects every event with a [Symbol]. *)
Lemma unconvertible_rejection_leaves_the_write_pending_witness :
  (λ _ : IServerSentEvent,
     Some (ChannelWritable.Rejected ChannelWritable.ThrownUnconvertible))
    {| event := "message"; data := "hello"; id := None |}
  = Some (ChannelWritable.Rejected ChannelWritable.ThrownUnconvertible) ∧
  ChannelWritable.observe
    (λ _, Some (ChannelWritable.Rejected ChannelWritable.ThrownUnconvertible))
    (ChannelWritable._write {| event := "message"; data := "hello"; id := None |})
  = [ ChannelWritable.PublishEventCalled
        {| event := "message"; data := "hello"; id := None |};
      ChannelWritable.PublishEventSettled
        (ChannelWritable.Rejected ChannelWritable.ThrownUnconvertible);
      ChannelWritable.WriteRejected ] ∧
  ∀ err,
    ChannelWritable.CallbackInvoked err ∉
    ChannelWritable.observe
      (λ _, Some (ChannelWritable.Rejected ChannelWritable.ThrownUnconvertible))
      (ChannelWritable._write {| event := "message"; data := "hello"; id := None |}).
Proof.
  exact (conj eq_refl
    (unconvertible_rejection_leaves_the_write_pending
       (λ _, Some (ChannelWritable.Rejected ChannelWritable.ThrownUnconvertible))
       {| event := "message"; data := "hello"; id := None |} eq_refl)).
Defined.

(** C4 at a direct subscription to the channels [a] and [b], on a
    response object that came with status 503. *)
Lemma accepted_request_gets_one_stream_open_witness :
  accepted Sample.subscribeRequest ∧
  hasFlags Sample.configured Sample.subscribeRequest Sample.direct ∧
  lastEventId Sample.subscribeRequest ≠ Some "error" ∧
  resolveChannels None Sample.subscribeRequest = inr ["a"; "b"] ∧
  statusCode (setStatusCode 503 freshResponse) = 503 ∧
  (Sample.run Sample.configured None
     {| req := Sample.subscribeRequest; res := setStatusCode 503 freshResponse;
        calls := [] |}).1 = inr tt ∧
  statusCode (res (Sample.run Sample.configured None
     {| req := Sample.subscribeRequest; res := setStatusCode 503 freshResponse;
        calls := [] |}).2) = 200 ∧
  headSent (res (Sample.run Sample.configured None
     {| req := Sample.subscribeRequest; res := setStatusCode 503 freshResponse;
        calls := [] |}).2) = Some 200 ∧
  chunks (res (Sample.run Sample.configured None
     {| req := Sample.subscribeRequest; res := setStatusCode 503 freshResponse;
        calls := [] |}).2)
    = [Sample.joinEncodedEvents [Sample.encodeEvent streamOpen]] ∧
  event streamOpen = "stream-open" ∧ data streamOpen = "" ∧
  calls (Sample.run Sample.configured None
     {| req := Sample.subscribeRequest; res := setStatusCode 503 freshResponse;
        calls := [] |}).2 =
    [ ConnectGripRun;
      ResSetHeader "Connection" "Transfer-Encoding";
      ResSetHeader "Transfer-Encoding" "chunked";
      ResWrite (Sample.joinEncodedEvents [Sample.encodeEvent streamOpen]);
      NewAddressedEventsReadable ["a"; "b"]; PipeSerializer; PipeResponse ].
Proof.
  assert (Hacc : accepted Sample.subscribeRequest) by reflexivity.
  assert (Hflags : hasFlags Sample.configured Sample.subscribeRequest Sample.direct).
  { right. split; [reflexivity|]. eexists. split; reflexivity. }
  assert (Hid : lastEventId Sample.subscribeRequest ≠ Some "error") by discriminate.
  assert (Hch : resolveChannels None Sample.subscribeRequest = inr ["a"; "b"])
    by reflexivity.
  assert (Hne : ["a"; "b"] ≠ @nil string) by discriminate.
  exact (conj Hacc (conj Hflags (conj Hid (conj Hch (conj eq_refl
    (at_sample accepted_request_gets_one_stream_open
       Sample.configured None Sample.subscribeRequest Sample.direct ["a"; "b"] 503
       Hacc Hflags eq_refl Hid Hch Hne)))))).
Defined.

(** C5, amended, at a request whose target the URL parser would refuse. *)
Lemma resume_error_answered_400_witness :
  accepted Sample.resumeErrorRequest ∧
  lastEventId Sample.resumeErrorRequest = Some "error" ∧
  outcome None Sample.resumeErrorRequest =
    (inr tt, {| req := Sample.resumeErrorRequest;
                res := endedWith 400 ("last-event-id header may not be 'error'." +:+ LF);
                calls := [ResEnd (Some ("last-event-id header may not be 'error'." +:+ LF))] |}).
Proof.
  assert (Hacc : accepted Sample.resumeErrorRequest) by reflexivity.
  assert (Hflags : hasFlags Sample.configured Sample.resumeErrorRequest Sample.direct)
    by (left; reflexivity).
  assert (Hid : lastEventId Sample.resumeErrorRequest = Some "error") by reflexivity.
  exact (conj Hacc (conj Hid
    (at_sample resume_error_answered_400
       Sample.configured None Sample.resumeErrorRequest Sample.direct
       Hacc Hflags eq_refl Hid))).
Defined.

(** C5 as worded fails behind the negotiation step: [Accept:
    application/json] with [last-event-id: error] is answered 406. *)
Lemma resume_error_behind_negotiation_gets_406 :
  lastEventId Sample.jsonResumeErrorRequest = Some "error" ∧
  headSent (res (outcome None Sample.jsonResumeErrorRequest).2) = Some 406 ∧
  headSent (res (outcome None Sample.jsonResumeErrorRequest).2) ≠ Some 400.
Proof. split; [reflexivity|]. split; [reflexivity | discriminate]. Qed.

(** C6 at [Accept: application/json]. *)
Lemma unacceptable_request_answered_406_witness :
  Sample.accepts_types (headers Sample.jsonRequest !! "accept") "text/event-stream" = false ∧
  outcome None Sample.jsonRequest =
    (inr tt, {| req := Sample.jsonRequest;
                res := endedWith 406 ("Not Acceptable." +:+ LF);
                calls := [ResEnd (Some ("Not Acceptable." +:+ LF))] |}).
Proof.
  assert (Hacc : Sample.accepts_types (headers Sample.jsonRequest !! "accept")
                   "text/event-stream" = false) by reflexivity.
  exact (conj Hacc
    (at_sample unacceptable_request_answered_406
       Sample.configured None Sample.jsonRequest Hacc)).
Defined.

(** C8 at a signed proxied request for the channels [a] and [b]. *)
Lemma proxied_request_is_held_witness :
  accepted Sample.heldRequest ∧
  resolveChannels None Sample.heldRequest = inr ["a"; "b"] ∧
  isProxied Sample.proxied = true ∧
  (outcome None Sample.heldRequest).1 = inr tt ∧
  calls (outcome None Sample.heldRequest).2 =
    [ StartInstruct; SetHoldStream; AddChannel ["a"; "b"];
      SetKeepAlive (Sample.encodeEvent keepAlive) Sample.KEEP_ALIVE_TIMEOUT; ToHeaders;
      ResWrite (Sample.joinEncodedEvents [Sample.encodeEvent streamOpen]);
      ResEnd None ] ∧
  event keepAlive = "keep-alive" ∧ data keepAlive = "" ∧
  finished (res (outcome None Sample.heldRequest).2) = true ∧
  (∀ cs, NewAddressedEventsReadable cs ∉ calls (outcome None Sample.heldRequest).2).
Proof.
  assert (Hacc : accepted Sample.heldRequest) by reflexivity.
  assert (Hflags : hasFlags Sample.configured Sample.heldRequest Sample.proxied)
    by (left; reflexivity).
  assert (Hid : lastEventId Sample.heldRequest ≠ Some "error") by discriminate.
  assert (Hch : resolveChannels None Sample.heldRequest = inr ["a"; "b"])
    by reflexivity.
  assert (Hne : ["a"; "b"] ≠ @nil string) by discriminate.
  exact (conj Hacc (conj Hch (conj eq_refl
    (at_sample proxied_request_is_held
       Sample.configured None Sample.heldRequest Sample.proxied ["a"; "b"]
       Hacc Hflags eq_refl Hid Hch Hne eq_refl)))).
Defined.

(** C9 at a request that no middleware has looked at. *)
Lemma detection_throws_without_configuration_witness :
  accepted Sample.undetectedRequest ∧
  grip Sample.undetectedRequest = None ∧
  connectGrip Sample.unconfigured = None ∧
  Sample.run Sample.unconfigured None (arrive Sample.undetectedRequest) =
    (inl (TypeError "Cannot read properties of undefined (reading 'run')"),
     arrive Sample.undetectedRequest).
Proof.
  assert (Hacc : accepted Sample.undetectedRequest) by reflexivity.
  assert (Hg : grip Sample.undetectedRequest = None) by reflexivity.
  pose proof (at_sample detection_throws_without_configuration
                None Sample.undetectedRequest Hacc Hg) as (Hcg & Hthrow & _).
  exact (conj Hacc (conj Hg (conj Hcg Hthrow))).
Defined.

End Instances.

(** * Further properties of the handler *)

Lemma filter_unseen_nil (values : list string) :
  filter (λ v, v ∉ @nil string) values = values.
Proof.
  induction values as [|v values IH]; [done|].
  rewrite filter_cons_True by (apply not_elem_of_nil). by rewrite IH.
Qed.

Lemma string_append_assoc (a b c : string) : (a +:+ b) +:+ c = a +:+ (b +:+ c).
Proof.
  induction a as [|x a IH]; [done|].
  change (String x ((a +:+ b) +:+ c) = String x (a +:+ (b +:+ c))).
  by rewrite IH.
Qed.

Section RunOutcomes.

Import Http ConnectEventStream.

Variable accepts_types : option HeaderValue → string → bool.
Variable flattenHttpHeaders : option HeaderValue → option string.
Variable URL_searchParams : string → string → option (list (string * string)).
Variable encodeEvent : IServerSentEvent → string.
Variable joinEncodedEvents : list string → string.
Variable KEEP_ALIVE_TIMEOUT : Z.
Variable GripPublisherSpec : Type.
Variable connectGrip_run : ConnectGrip GripPublisherSpec → IncomingMessage → RequestGrip.

Local Abbreviation run :=
  (ConnectEventStream.run accepts_types flattenHttpHeaders URL_searchParams
     encodeEvent joinEncodedEvents KEEP_ALIVE_TIMEOUT GripPublisherSpec
     connectGrip_run).
Local Abbreviation resolveChannels := (ConnectEventStream.resolveChannels URL_searchParams).
Local Abbreviation hasFlags := (ConnectEventStream.hasFlags connectGrip_run).
Local Abbreviation accepted r :=
  (accepts_types (headers r !! "accept") "text/event-stream" = true).
Local Abbreviation lastEventId r := (flattenHttpHeaders (headers r !! "last-event-id")).
Local Abbreviation noConnectGrip :=
  (TypeError "Cannot read properties of undefined (reading 'run')").

Implicit Types (this : ConnectEventStream GripPublisherSpec)
  (o : option IHandlerOptions) (r : IncomingMessage) (g : RequestGrip).

Lemma resolveChannels_throws o r e :
  resolveChannels o r = inl e → e = TypeError "Invalid URL".
Proof.
  unfold ConnectEventStream.resolveChannels.
  destruct (readsQuery o); [|discriminate].
  destruct (URL_searchParams _ _); [discriminate|]. congruence.
Qed.

(** Every run from an arriving request is of one of three kinds. *)
Lemma run_trichotomy this o r :
  (accepts_types (headers r !! "accept") "text/event-stream" = false ∧
   run this o (arrive r) =
     (inr tt, {| req := r; res := endedWith 406 ("Not Acceptable." +:+ LF);
                 calls := [ResEnd (Some ("Not Acceptable." +:+ LF))] |})) ∨
  (accepted r ∧ grip r = None ∧ connectGrip this = None ∧
   run this o (arrive r) = (inl noConnectGrip, arrive r)) ∨
  (∃ g, accepted r ∧ hasFlags this r g ∧
        (grip r = None → is_Some (connectGrip this))).
Proof.
  destruct (accepts_types (headers r !! "accept") "text/event-stream") eqn:Hacc.
  - right. destruct (grip r) as [g|] eqn:Hg.
    + right. exists g. split; [done|]. split; [by left | done].
    + destruct (connectGrip this) as [cg|] eqn:Hcg.
      * right. exists (connectGrip_run cg r). split; [done|]. split; [|by eexists].
        right. split; [done|]. by exists cg.
      * left. split_and!; try done. unfold_run. by rewrite Hacc, Hg, Hcg.
  - left. split; [done|]. unfold_run. by rewrite Hacc.
Qed.

(** Split a goal about [run this o (arrive r)] along the source's exits. *)
Ltac run_exits this o r :=
  let g := fresh "g" in
  let Hacc := fresh "Hacc" in
  let Hflags := fresh "Hflags" in
  let Hcg := fresh "Hcg" in
  let Hrun := fresh "Hrun" in
  let Hg := fresh "Hg" in
  destruct (run_trichotomy this o r)
    as [(Hacc & Hrun) | [(Hacc & Hg & Hcg & Hrun) | (g & Hacc & Hflags & Hcg)]];
  [ rewrite Hrun in *
  | rewrite Hrun in *
  | rewrite (run_past_detection _ _ _ _ _ _ _ _ this o r g Hacc Hflags) in *;
    cbv zeta in *;
    destruct (isProxied g && (needsSigned g && negb (isSigned g)));
    [ | destruct (bool_decide (lastEventId r = Some "error"));
        [ | let e := fresh "e" in
            let Hres := fresh "Hres" in
            destruct (resolveChannels o r) as [e | [|? ?]] eqn:Hres;
            [ apply resolveChannels_throws in Hres | | destruct (isProxied g) ] ] ] ].

(** X1.  An exception of [run] leaves the response untouched. *)
Theorem run_throws_before_anything_is_sent this o r e w :
  run this o (arrive r) = (inl e, w) →
  res w = freshResponse ∧
  (e = noConnectGrip ∨ e = TypeError "Invalid URL") ∧
  (calls w = [] ∨ calls w = [ConnectGripRun]).
Proof.
  intros H. run_exits this o r; simplify_eq/=; split_and!; auto;
    unfold detectionCalls; destruct (grip r); auto.
Qed.


(** X3.  connect-grip is run exactly when the request passed
    negotiation, came without [grip], and the handler has a
    [connectGrip]; it is then the first call, and is not run twice. *)
Theorem connect_grip_runs_once_when_needed this o r :
  let w := (run this o (arrive r)).2 in
  (ConnectGripRun ∈ calls w ↔
     accepted r ∧ grip r = None ∧ is_Some (connectGrip this)) ∧
  ∃ rest, (ConnectGripRun ∉ rest) ∧
          (calls w = rest ∨ calls w = ConnectGripRun :: rest).
Proof.
  assert (Hdet : ∀ rest, ConnectGripRun ∉ rest →
            (grip r = None → is_Some (connectGrip this)) → accepted r →
            (ConnectGripRun ∈ detectionCalls r ++ rest ↔
               accepted r ∧ grip r = None ∧ is_Some (connectGrip this)) ∧
            ∃ rest', (ConnectGripRun ∉ rest') ∧
              (detectionCalls r ++ rest = rest' ∨
               detectionCalls r ++ rest = ConnectGripRun :: rest')).
  { intros rest Hrest Hcg Hacc. unfold detectionCalls.
    destruct (grip r) eqn:Hg; simpl.
    - split; [|exists rest; by auto]. split; [done|]. by intros (_ & ? & _).
    - split; [|exists rest; by auto].
      split; [by auto|]. intros _. apply elem_of_cons. by left. }
  run_exits this o r; simpl;
    try (apply Hdet; [intros Hin; absent_from_log Hin | done..]).
  - split; [|exists [ResEnd (Some ("Not Acceptable." +:+ LF))]; split;
              [intros Hin; absent_from_log Hin | by left]].
    split; [intros Hin; absent_from_log Hin|]. intros (Hyes & _). congruence.
  - split; [|exists []; split; [intros Hin; absent_from_log Hin | by left]].
    split; [intros Hin; absent_from_log Hin|].
    intros (_ & _ & Hsome).
    match goal with Hnone : connectGrip this = None |- _ => rewrite Hnone in Hsome end.
    by destruct Hsome.
  - rewrite <- (app_nil_r (detectionCalls r)).
    apply Hdet; [intros Hin; absent_from_log Hin | done..].
Qed.

(** X4.  With channels configured and query-sourcing off, the URL is
    never looked at: whatever the parser would make of the target, the
    request is accepted on exactly the configured channels. *)
Theorem configured_channels_bypass_the_url this o r g :
  accepted r → hasFlags this r g → signatureInOrder g →
  lastEventId r ≠ Some "error" →
  configuredChannels o ≠ [] →
  readChannelsFromQuery o = FromQueryBool false →
  resolveChannels o r = inr (configuredChannels o) ∧
  (run this o (arrive r)).1 = inr tt ∧
  calls (run this o (arrive r)).2 =
    detectionCalls r ++
    if isProxied g
    then holdCalls encodeEvent joinEncodedEvents KEEP_ALIVE_TIMEOUT (configuredChannels o)
    else pipeCalls encodeEvent joinEncodedEvents (configuredChannels o).
Proof.
  intros Hacc Hflags Hsig Hid Hne Hoff.
  assert (Hch : resolveChannels o r = inr (configuredChannels o)).
  { unfold ConnectEventStream.resolveChannels, readsQuery. rewrite Hoff. simpl.
    rewrite bool_decide_eq_false_2; [done|].
    destruct (configuredChannels o); [done | discriminate]. }
  split; [done|].
  by rewrite (run_accepted _ _ _ _ _ _ _ _ this o r g _ Hacc Hflags Hsig Hid Hch Hne).
Qed.

(** X5.  When [channelsFromQuery] is a parameter name and no channel is
    resolved, the 400 body names that parameter, which is the one the
    query was read under. *)
Theorem no_channels_message_names_the_parameter this r g configured name :
  let o := Some {| channels := configured;
                   channelsFromQuery := Some (FromQueryName name) |} in
  accepted r → hasFlags this r g → signatureInOrder g →
  lastEventId r ≠ Some "error" →
  resolveChannels o r = inr [] →
  channelParamName o = name ∧
  run this o (arrive r) =
    (inr tt,
     {| req := withGrip r g;
        res := endedWith 400
                 ("No specified channels. Specify the channels to read from using the ?"
                  +:+ name +:+ " query parameter." +:+ LF);
        calls := detectionCalls r ++
                 [ResEnd (Some ("No specified channels. Specify the channels to read from using the ?"
                                +:+ name +:+ " query parameter." +:+ LF))] |}).
Proof.
  intros o Hacc Hflags Hsig Hid Hch. split; [done|].
  rewrite (run_no_channels _ _ _ _ _ _ _ _ this o r g Hacc Hflags Hsig Hid Hch).
  unfold noChannelsMessage. simpl.
  change ("No specified channels. Specify the channels to read from using the ?"
          +:+ name +:+ " query parameter." +:+ LF)
    with ("No specified channels." +:+
          " Specify the channels to read from using the ?" +:+
          name +:+ " query parameter." +:+ LF).
  by rewrite !string_append_assoc.
Qed.

(** X16.  The Connect form never throws: what [run] throws goes to
    [next], and then nothing of the response has been sent; when [next] is
    called without an error the head is out, under 200, 400 or 406.  The
    three-argument [route] is this call of [exec]. *)
Theorem exec_reports_to_next this message eventStream :
  let result :=
    Routes.exec accepts_types flattenHttpHeaders URL_searchParams encodeEvent
      joinEncodedEvents KEEP_ALIVE_TIMEOUT GripPublisherSpec connectGrip_run
      this message eventStream freshResponse in
  match result.1 with
  | Some e =>
      res result.2 = freshResponse ∧
      (e = noConnectGrip ∨ e = TypeError "Invalid URL")
  | None =>
      headSent (res result.2) = Some (statusCode (res result.2)) ∧
      statusCode (res result.2) ∈ [200; 400; 406]
  end ∧
  ∀ fn,
    Routes.route accepts_types flattenHttpHeaders URL_searchParams encodeEvent
      joinEncodedEvents KEEP_ALIVE_TIMEOUT GripPublisherSpec connectGrip_run
      this [Routes.ArgRequest message eventStream; Routes.ArgResponse freshResponse; fn]
    = Routes.Executed result.1 result.2.
Proof.
  intros result. split.
  - unfold result, Routes.exec.
    change {| req := message; res := freshResponse; calls := [] |} with (arrive message).
    generalize (Routes.asOptions eventStream). intros o.
    run_exits this o message; simpl; split; auto;
      rewrite !elem_of_cons; auto.
  - intros fn. unfold result. simpl. by destruct (Routes.exec _ _ _ _ _ _ _ _ _ _ _ _).
Qed.

(** Membership of a call in the log of one exit, as an equation or a
    contradiction. *)
Ltac in_log H :=
  try (apply elem_of_app in H as [H | H];
       [unfold detectionCalls in H; destruct (grip _); absent_from_log H|]);
  try (progress unfold detectionCalls in H; destruct (grip _); absent_from_log H);
  unfold holdCalls, pipeCalls in H;
  repeat (apply elem_of_cons in H as [H | H]; [try discriminate H|]);
  try (by apply elem_of_nil in H).

(** X18.  The two ways of delivery exclude each other, and both work on
    the resolved channels: channels bound to a hold are the resolved
    ones, the response is then ended and no subscription is created;
    channels subscribed to are the resolved ones, there is at least one,
    and the response is left open. *)
Theorem hold_and_subscription_exclude_each_other this o r :
  let w := (run this o (arrive r)).2 in
  (∀ channels, AddChannel channels ∈ calls w →
     resolveChannels o r = inr channels ∧ finished (res w) = true ∧
     ∀ channels', NewAddressedEventsReadable channels' ∉ calls w) ∧
  (∀ channels, NewAddressedEventsReadable channels ∈ calls w →
     resolveChannels o r = inr channels ∧ channels ≠ [] ∧ finished (res w) = false).
Proof.
  run_exits this o r; simpl; split; intros cs Hin; in_log Hin;
    try (by simplify_eq).
  simplify_eq. split_and!; try done. intros cs' Hin'. in_log Hin'.
Qed.

(** X19.  Nothing is called once the response is ended: [res.end] is
    the last call of every run that makes it. *)
Theorem nothing_follows_the_end this o r chunk before after :
  calls (run this o (arrive r)).2 = before ++ ResEnd chunk :: after →
  after = [].
Proof.
  intros H.
  run_exits this o r; simpl in H; unfold detectionCalls, holdCalls, pipeCalls in H;
    try destruct (grip r); simpl in H;
    repeat (destruct before as [|? before]; simplify_eq/=; try done).
Qed.

End RunOutcomes.

(** ** More on channel resolution *)

Section ResolveChannelsMore.

Import Http ConnectEventStream.

Variable URL_searchParams : string → string → option (list (string * string)).
Local Abbreviation resolveChannels := (ConnectEventStream.resolveChannels URL_searchParams).



(** X7.  Configured channels without repetition are resolved to a list
    without repetition, whatever the query repeats. *)
Theorem resolved_channels_NoDup o r channels :
  NoDup (configuredChannels o) →
  resolveChannels o r = inr channels →
  NoDup channels.
Proof.
  intros Hnd. unfold ConnectEventStream.resolveChannels.
  destruct (readsQuery o); [|congruence].
  destruct (URL_searchParams _ _) as [sp|]; [|discriminate].
  intros [= <-]. rewrite merge_loop_first_seen. unfold resolvedBySpec.
  apply NoDup_app. split; [done|]. split; [|apply firstSeen_NoDup].
  intros v Hv Hin. apply firstSeen_elem_of, list_elem_of_filter in Hin.
  by destruct Hin.
Qed.

Lemma merge_loop_known values channels :
  (∀ v, v ∈ values → v ∈ channels) →
  fold_left pushUnique values channels = channels.
Proof.
  induction values as [|v values IH]; intros Hall; simpl; [done|].
  unfold pushUnique at 2. rewrite bool_decide_eq_true_2.
  - apply IH. intros v' Hv'. apply Hall. by right.
  - apply Hall. by left.
Qed.

(** X8.  Merging the same query values a second time adds nothing. *)
Theorem merge_loop_idempotent values channels :
  fold_left pushUnique values (fold_left pushUnique values channels)
    = fold_left pushUnique values channels.
Proof.
  apply merge_loop_known. intros v Hv.
  rewrite merge_loop_first_seen. unfold resolvedBySpec.
  apply elem_of_app. destruct (decide (v ∈ channels)) as [Hin | Hout]; [by left|].
  right. by apply firstSeen_elem_of, list_elem_of_filter.
Qed.

End ResolveChannelsMore.

(** ** More on the cache of channel writables *)

Section ChannelWritablesMore.

Import ConnectEventStream.

Context {GripPublisherSpec : Type}.
Implicit Types (this : ConnectEventStream GripPublisherSpec) (heap : Heap)
  (st : ConnectEventStream GripPublisherSpec * Heap).

Lemma cacheWellFormed_step channel st :
  cacheWellFormed st → cacheWellFormed (getChannelWritable channel st).2.
Proof.
  destruct st as [this heap]. intros Hwf. unfold getChannelWritable.
  destruct (getProperty _ _) as [v|] eqn:Hget; simpl; [done|].
  intros c v Hc. simpl in *. apply lookup_insert_Some in Hc as [[<- <-] | [Hne Hc]].
  - eexists. split; [done|]. simpl. by apply list_lookup_middle.
  - destruct (Hwf c v Hc) as (a & -> & Ha). exists a. split; [done|].
    simpl. by apply lookup_app_l_Some.
Qed.

(** X11.  However many channels a new handler has been asked for, its
    cache holds only references, each to a writable built for the name
    it is stored under. *)
Theorem cache_stays_well_formed (params : Params GripPublisherSpec) channels :
  cacheWellFormed (afterCalls channels (constructor params, [])).
Proof.
  assert (Hinit : cacheWellFormed (constructor params, [])).
  { intros c v Hc.
    destruct params as [|s|[[g|] p]]; simpl in Hc;
      rewrite lookup_empty in Hc; discriminate. }
  revert Hinit. generalize (constructor params, @nil string).
  induction channels as [|c channels IH]; intros st Hwf; simpl; [done|].
  apply IH. by apply cacheWellFormed_step.
Qed.

(** The writable returned for a name that is not inherited, and where it
    lives. *)
Lemma getChannelWritable_ref channel st :
  cacheWellFormed st → channel ∉ objectPrototype →
  ∃ address,
    (getChannelWritable channel st).1 = ChannelWritableRef address ∧
    (getChannelWritable channel st).2.2 !! address = Some channel ∧
    _channelWritables (getChannelWritable channel st).2.1 !! channel
      = Some (ChannelWritableRef address).
Proof.
  destruct st as [this heap]. intros Hwf Hproto.
  unfold getChannelWritable, getProperty.
  destruct (_channelWritables this !! channel) as [v|] eqn:Hown; simpl.
  - destruct (Hwf channel v Hown) as (a & -> & Ha). by exists a.
  - rewrite bool_decide_eq_false_2 by done. simpl. exists (length heap).
    split; [done|]. split; [by apply list_lookup_middle|].
    apply lookup_insert_eq.
Qed.

(** X12.  In a well-formed cache two different names, neither of them
    inherited, get two different writables, each built for its own name;
    and the first name still yields its writable after the second was
    asked for. *)
Theorem distinct_channels_get_distinct_writables st c1 c2 :
  cacheWellFormed st →
  c1 ∉ objectPrototype → c2 ∉ objectPrototype → c1 ≠ c2 →
  let first := getChannelWritable c1 st in
  let second := getChannelWritable c2 first.2 in
  first.1 ≠ second.1 ∧
  (∃ a1 a2, first.1 = ChannelWritableRef a1 ∧ second.1 = ChannelWritableRef a2 ∧
            second.2.2 !! a1 = Some c1 ∧ second.2.2 !! a2 = Some c2) ∧
  (getChannelWritable c1 second.2).1 = first.1.
Proof.
  intros Hwf H1 H2 Hne first second.
  pose proof (cacheWellFormed_step c1 st Hwf) as Hwf1. fold first in Hwf1.
  pose proof (cacheWellFormed_step c2 first.2 Hwf1) as Hwf2. fold second in Hwf2.
  destruct (getChannelWritable_ref c1 st Hwf H1) as (a1 & Hv1 & Hh1 & Hm1).
  destruct (getChannelWritable_ref c2 first.2 Hwf1 H2) as (a2 & Hv2 & Hh2 & Hm2).
  fold first in Hv1, Hh1, Hm1. fold second in Hv2, Hh2, Hm2.
  assert (Hm1' : _channelWritables second.2.1 !! c1 = Some (ChannelWritableRef a1)).
  { unfold second, getChannelWritable. destruct first.2 as [this1 heap1] eqn:Hst1.
    simpl in *. destruct (getProperty _ c2); simpl; [done|].
    by rewrite lookup_insert_ne. }
  destruct (Hwf2 c1 _ Hm1') as (a1' & [= <-] & Hh1').
  split_and!.
  - rewrite Hv1, Hv2. intros [= ->]. congruence.
  - by exists a1, a2.
  - rewrite Hv1. destruct second.2 as [this2 heap2]. simpl in *.
    unfold getChannelWritable, getProperty. by rewrite Hm1'.
Qed.

(** What is stored stays stored, and an inherited name is never stored. *)
Lemma stored_stays_stored channel v channels st :
  _channelWritables st.1 !! channel = Some v →
  _channelWritables (afterCalls channels st).1 !! channel = Some v.
Proof.
  revert st. induction channels as [|c channels IH]; intros [this heap] Hv; [done|].
  simpl. apply IH. unfold getChannelWritable.
  destruct (getProperty _ c) as [v'|] eqn:Hget; simpl; [done|].
  rewrite lookup_insert_ne; [done|]. intros ->.
  unfold getProperty in Hget. simpl in Hv. by rewrite Hv in Hget.
Qed.

Lemma inherited_stays_unstored channel channels st :
  channel ∈ objectPrototype →
  _channelWritables st.1 !! channel = None →
  _channelWritables (afterCalls channels st).1 !! channel = None.
Proof.
  intros Hproto. revert st.
  induction channels as [|c channels IH]; intros [this heap] Hnone; [done|].
  simpl. apply IH. unfold getChannelWritable.
  destruct (getProperty _ c) as [v'|] eqn:Hget; simpl; [done|].
  rewrite lookup_insert_ne; [done|]. intros ->.
  unfold getProperty in Hget. simpl in Hnone.
  by rewrite Hnone, bool_decide_eq_true_2 in Hget.
Qed.

(** X9.  Once a name has been asked for, it yields the same value ever
    after, whatever is asked for in between; this holds in every state
    and for every name. *)
Theorem writable_is_memoised channel channels st :
  (getChannelWritable channel
     (afterCalls channels (getChannelWritable channel st).2)).1
  = (getChannelWritable channel st).1.
Proof.
  destruct st as [this heap].
  destruct (getProperty (_channelWritables this) channel) as [v|] eqn:Hget.
  - assert (Hfirst : getChannelWritable channel (this, heap) = (v, (this, heap))).
    { unfold getChannelWritable. by rewrite Hget. }
    rewrite Hfirst. simpl.
    destruct (afterCalls channels (this, heap)) as [this' heap'] eqn:Hafter.
    unfold getChannelWritable, getProperty in *.
    destruct (_channelWritables this !! channel) as [v'|] eqn:Hown.
    + simplify_eq.
      pose proof (stored_stays_stored channel v channels (this, heap) Hown) as Hlater.
      rewrite Hafter in Hlater. simpl in Hlater. by rewrite Hlater.
    + case_bool_decide as Hproto; [|done]. simplify_eq.
      pose proof (inherited_stays_unstored channel channels (this, heap) Hproto Hown)
        as Hlater.
      rewrite Hafter in Hlater. simpl in Hlater.
      rewrite Hlater. by rewrite ?bool_decide_eq_true_2.
  - unfold getChannelWritable at 2 3. rewrite Hget. simpl.
    match goal with |- context [afterCalls channels ?st1] =>
      pose proof (stored_stays_stored channel (ChannelWritableRef (length heap))
                    channels st1 (lookup_insert_eq _ _ _)) as Hlater;
      destruct (afterCalls channels st1) as [this' heap'] end.
    unfold getChannelWritable, getProperty. simpl in Hlater. by rewrite Hlater.
Qed.

(** The heap grows by the name asked for when it is neither inherited
    nor known, and not at all otherwise. *)
Lemma heap_grows_like_the_merge_loop channels st :
  (∀ c, is_Some (_channelWritables st.1 !! c) ↔ c ∈ st.2) →
  (afterCalls channels st).2
    = fold_left pushUnique (filter (λ c, c ∉ objectPrototype) channels) st.2.
Proof.
  revert st. induction channels as [|c channels IH]; intros [this heap] Hdom; [done|].
  change (afterCalls (c :: channels) (this, heap))
    with (afterCalls channels (getChannelWritable c (this, heap)).2).
  cbn [fst snd] in Hdom. unfold getChannelWritable, getProperty.
  destruct (_channelWritables this !! c) as [v|] eqn:Hown; cbn [fst snd].
  - assert (Hin : c ∈ heap) by (apply Hdom; by rewrite Hown).
    rewrite (IH (this, heap) Hdom). cbn [fst snd].
    destruct (decide (c ∉ objectPrototype)) as [Hp | Hp].
    + rewrite filter_cons_True by done. cbn [fold_left].
      replace (pushUnique heap c) with heap; [done|].
      unfold pushUnique. by rewrite bool_decide_eq_true_2.
    + by rewrite filter_cons_False.
  - assert (Hout : c ∉ heap).
    { intros Hin. apply Hdom in Hin. rewrite Hown in Hin. by destruct Hin. }
    case_bool_decide as Hproto; cbn [fst snd].
    + rewrite (IH (this, heap) Hdom). cbn [fst snd].
      rewrite filter_cons_False; [done|]. by intros Hn.
    + rewrite IH; cbn [fst snd _channelWritables].
      * rewrite filter_cons_True by done. cbn [fold_left].
        replace (pushUnique heap c) with (heap ++ [c]); [done|].
        unfold pushUnique. by rewrite bool_decide_eq_false_2.
      * intros c'. rewrite elem_of_app, list_elem_of_singleton.
        destruct (decide (c' = c)) as [-> | Hne].
        -- rewrite lookup_insert_eq. split; [by right | by eexists].
        -- rewrite lookup_insert_ne by done. rewrite Hdom. naive_solver.
Qed.

(** X10.  A new handler that has been asked for a series of names has
    built one writable for each distinct name that is not inherited, in
    the order the names were first asked for, and nothing else. *)
Theorem one_writable_per_channel (params : Params GripPublisherSpec) channels :
  (afterCalls channels (constructor params, [])).2
    = firstSeen (filter (λ c, c ∉ objectPrototype) channels).
Proof.
  rewrite heap_grows_like_the_merge_loop.
  - simpl. rewrite merge_loop_first_seen. unfold resolvedBySpec. simpl.
    by rewrite filter_unseen_nil.
  - intros c. simpl.
    assert (Hempty : _channelWritables (constructor params) !! c = None).
    { destruct params as [|s|[[g|] p]]; apply lookup_empty. }
    rewrite Hempty. split; [by intros [? ?] | by intros ?%elem_of_nil].
Qed.

End ChannelWritablesMore.

(** ** The entry points *)

Arguments ConnectEventStream.cg_grip {GripPublisherSpec} c.
Arguments ConnectEventStream.cg_prefix {GripPublisherSpec} c.
Arguments ConnectEventStream.cfg_grip {GripPublisherSpec} i.
Arguments ConnectEventStream.cfg_prefix {GripPublisherSpec} i.

Section Entry.

Import Http ConnectEventStream Routes.

Variable accepts_types : option HeaderValue → string → bool.
Variable flattenHttpHeaders : option HeaderValue → option string.
Variable URL_searchParams : string → string → option (list (string * string)).
Variable encodeEvent : IServerSentEvent → string.
Variable joinEncodedEvents : list string → string.
Variable KEEP_ALIVE_TIMEOUT : Z.
Variable GripPublisherSpec : Type.
Variable connectGrip_run : ConnectGrip GripPublisherSpec → IncomingMessage → RequestGrip.

Local Abbreviation run :=
  (ConnectEventStream.run accepts_types flattenHttpHeaders URL_searchParams
     encodeEvent joinEncodedEvents KEEP_ALIVE_TIMEOUT GripPublisherSpec
     connectGrip_run).
Local Abbreviation exec :=
  (Routes.exec accepts_types flattenHttpHeaders URL_searchParams
     encodeEvent joinEncodedEvents KEEP_ALIVE_TIMEOUT GripPublisherSpec
     connectGrip_run).
Local Abbreviation route :=
  (Routes.route accepts_types flattenHttpHeaders URL_searchParams
     encodeEvent joinEncodedEvents KEEP_ALIVE_TIMEOUT GripPublisherSpec
     connectGrip_run).
Local Abbreviation resolveChannels := (ConnectEventStream.resolveChannels URL_searchParams).
Local Abbreviation noConnectGrip :=
  (TypeError "Cannot read properties of undefined (reading 'run')").

Implicit Types (this : ConnectEventStream GripPublisherSpec)
  (r message : IncomingMessage) (params rest items : list Arg).

(** X13.  Channel names given as arguments are the resolved channels,
    as they stand and whatever the query says: with a string first, the
    string arguments in order (the others are dropped); with an array
    first, its string elements, provided there is one (the arguments
    after the array are not looked at). *)
Theorem channel_names_are_resolved_as_given r :
  (∀ s rest,
     resolveChannels (asOptions (parseParams (ArgString s :: rest))) r
       = inr (s :: strings rest)) ∧
  (∀ items rest, strings items ≠ [] →
     resolveChannels (asOptions (parseParams (ArgArray items :: rest))) r
       = inr (strings items)).
Proof.
  split.
  - intros s rest. reflexivity.
  - intros items rest Hne. unfold ConnectEventStream.resolveChannels, readsQuery. simpl.
    rewrite bool_decide_eq_false_2; [done|].
    destruct (strings items); [done | discriminate].
Qed.

(** X14.  Without a usable name (no argument at all, an array with no
    string in it, or [undefined]) the channels are the values of the
    query parameter [channel], each once, in first-seen order; an
    unparsable URL is the [TypeError] of the parser. *)
Theorem without_names_the_query_decides params r :
  params = [] ∨
  (∃ items rest, params = ArgArray items :: rest ∧ strings items = []) ∨
  (∃ rest, params = ArgUndefined :: rest) →
  resolveChannels (asOptions (parseParams params)) r =
    match URL_searchParams (url r) ("http://" +:+ template (headers r !! "host")) with
    | Some searchParams => inr (firstSeen (getAll "channel" searchParams))
    | None => inl (TypeError "Invalid URL")
    end.
Proof.
  assert (Hall : ∀ values, resolvedBySpec [] values = firstSeen values).
  { intros values. unfold resolvedBySpec. simpl. f_equal.
    induction values as [|v values IH]; [done|].
    rewrite filter_cons_True by (apply not_elem_of_nil). by rewrite IH. }
  intros [-> | [(items & rest & -> & Hnone) | (rest & ->)]];
    unfold ConnectEventStream.resolveChannels, readsQuery; simpl;
    rewrite ?Hnone; simpl;
    (destruct (URL_searchParams _ _); [|done]);
    by rewrite merge_loop_first_seen, Hall.
Qed.

(** X15.  Called on a request with any number of arguments other than
    two or three, [route] returns [undefined]: nothing is run. *)
Theorem route_on_a_request_needs_two_or_three_arguments this message eventStream rest :
  length rest ≠ 1%nat → length rest ≠ 2%nat →
  route this (ArgRequest message eventStream :: rest) = ReturnedUndefined.
Proof.
  intros H1 H2. destruct rest as [|a [|b [|c rest]]]; simpl in *; try done.
  - by destruct a.
Qed.

End Entry.

(** ** Construction *)

Section Construction.

Import ConnectEventStream.

Context {GripPublisherSpec : Type}.

(** X17.  A configuration with a [grip] and a [prefix] gives the
    handler that prefix and connect-grip that grip and prefix; with a
    [grip] and no [prefix] both get [events-].  The handler's prefix is
    [events-] in every other case; connect-grip, when it is set up,
    gets the same prefix as the handler keeps; and a configuration
    object without [grip] is itself handed to connect-grip as the
    publisher spec, its [prefix] being dropped. *)
Theorem constructor_prefix_and_grip (params : Params GripPublisherSpec) :
  (∀ g p, params = Config {| cfg_grip := Some g; cfg_prefix := Some p |} →
          constructor params =
            {| connectGrip := Some {| cg_grip := Spec g; cg_prefix := p |};
               prefix := p;
               _channelWritables := ∅ |}) ∧
  (∀ g, params = Config {| cfg_grip := Some g; cfg_prefix := None |} →
        constructor params =
          {| connectGrip := Some {| cg_grip := Spec g; cg_prefix := "events-" |};
             prefix := "events-";
             _channelWritables := ∅ |}) ∧
  (prefix (constructor params) ≠ "events-" →
     ∃ g p, params = Config {| cfg_grip := Some g; cfg_prefix := Some p |} ∧
            prefix (constructor params) = p) ∧
  (∀ cg, connectGrip (constructor params) = Some cg →
         cg_prefix cg = prefix (constructor params)) ∧
  (∀ cfg, params = Config cfg → cfg_grip cfg = None →
          constructor params =
            {| connectGrip := Some {| cg_grip := Config cfg; cg_prefix := "events-" |};
               prefix := "events-";
               _channelWritables := ∅ |}).
Proof.
  split_and!.
  - by intros g p ->.
  - by intros g ->.
  - destruct params as [|s|[[g|] [p|]]]; simpl; try done.
    intros _. by exists g, p.
  - intros cg. destruct params as [|s|[[g|] [p|]]]; simpl; intros Hcg; by simplify_eq.
  - intros [[g|] p] -> Hnone; simpl in *; [discriminate | done].
Qed.

End Construction.

(** ** More on the publish sink *)

Section PublishSinkMore.

Import ChannelWritable.

Variable publishEvent : IServerSentEvent → option Settlement.

(** X20.  A write calls [publishEvent] first, once, and with the very
    event that was written. *)
Theorem write_publishes_the_event_once event :
  ∃ rest,
    observe publishEvent (_write event) = PublishEventCalled event :: rest ∧
    ∀ e, PublishEventCalled e ∉ rest.
Proof.
  rewrite observe_write. eexists. split; [done|].
  intros e Hin.
  destruct (publishEvent event) as [[|ex]|]; try destruct (asError ex);
    absent_from_log Hin.
Qed.

End PublishSinkMore.

(** ** The further statements at concrete inputs *)

Section MoreInstances.

Import Http ConnectEventStream Routes.

Local Abbreviation at_sample thm :=
  (thm Sample.accepts_types Sample.flattenHttpHeaders Sample.URL_searchParams
       Sample.encodeEvent Sample.joinEncodedEvents Sample.KEEP_ALIVE_TIMEOUT
       Sample.GripPublisherSpec Sample.connectGrip_run).
Local Abbreviation accepted r :=
  (Sample.accepts_types (headers r !! "accept") "text/event-stream" = true).
Local Abbreviation lastEventId r :=
  (Sample.flattenHttpHeaders (headers r !! "last-event-id")).
Local Abbreviation hasFlags := (ConnectEventStream.hasFlags Sample.connectGrip_run).
Local Abbreviation resolveChannels :=
  (ConnectEventStream.resolveChannels Sample.URL_searchParams).
Local Abbreviation noConnectGrip :=
  (TypeError "Cannot read properties of undefined (reading 'run')").

(** X1 at a handler without configuration. *)
Lemma run_throws_before_anything_is_sent_witness :
  Sample.run Sample.unconfigured None (arrive Sample.undetectedRequest)
    = (inl noConnectGrip, arrive Sample.undetectedRequest) ∧
  res (arrive Sample.undetectedRequest) = freshResponse ∧
  (noConnectGrip = noConnectGrip ∨ noConnectGrip = TypeError "Invalid URL") ∧
  (calls (arrive Sample.undetectedRequest) = [] ∨
   calls (arrive Sample.undetectedRequest) = [ConnectGripRun]).
Proof.
  assert (Hrun : Sample.run Sample.unconfigured None (arrive Sample.undetectedRequest)
                 = (inl noConnectGrip, arrive Sample.undetectedRequest)) by reflexivity.
  exact (conj Hrun
    (at_sample run_throws_before_anything_is_sent
       Sample.unconfigured None Sample.undetectedRequest _ _ Hrun)).
Defined.


(** X4 at a request whose target the sample parser refuses. *)
Lemma configured_channels_bypass_the_url_witness :
  accepted SampleRoutes.strayRequest ∧
  Sample.URL_searchParams (url SampleRoutes.strayRequest)
    ("http://" +:+ template (headers SampleRoutes.strayRequest !! "host")) = None ∧
  resolveChannels SampleRoutes.roomOnly SampleRoutes.strayRequest = inr ["room"] ∧
  (Sample.run Sample.configured SampleRoutes.roomOnly (arrive SampleRoutes.strayRequest)).1
    = inr tt ∧
  calls (Sample.run Sample.configured SampleRoutes.roomOnly (arrive SampleRoutes.strayRequest)).2
    = pipeCalls Sample.encodeEvent Sample.joinEncodedEvents ["room"].
Proof.
  assert (Hacc : accepted SampleRoutes.strayRequest) by reflexivity.
  assert (Hflags : hasFlags Sample.configured SampleRoutes.strayRequest Sample.direct)
    by (left; reflexivity).
  assert (Hid : lastEventId SampleRoutes.strayRequest ≠ Some "error") by discriminate.
  assert (Hne : configuredChannels SampleRoutes.roomOnly ≠ []) by discriminate.
  exact (conj Hacc (conj eq_refl
    (at_sample configured_channels_bypass_the_url
       Sample.configured SampleRoutes.roomOnly SampleRoutes.strayRequest Sample.direct
       Hacc Hflags eq_refl Hid Hne eq_refl))).
Defined.

(** X5 at a request with no [room] in its query. *)
Lemma no_channels_message_names_the_parameter_witness :
  accepted Sample.bareRequest ∧
  resolveChannels (SampleRoutes.fromRoom None) Sample.bareRequest = inr [] ∧
  channelParamName (SampleRoutes.fromRoom None) = "room" ∧
  Sample.run Sample.configured (SampleRoutes.fromRoom None) (arrive Sample.bareRequest) =
    (inr tt,
     {| req := Sample.bareRequest;
        res := endedWith 400
                 ("No specified channels. Specify the channels to read from using the ?room query parameter."
                  +:+ LF);
        calls := [ResEnd (Some ("No specified channels. Specify the channels to read from using the ?room query parameter."
                                +:+ LF))] |}).
Proof.
  assert (Hacc : accepted Sample.bareRequest) by reflexivity.
  assert (Hflags : hasFlags Sample.configured Sample.bareRequest Sample.direct)
    by (left; reflexivity).
  assert (Hid : lastEventId Sample.bareRequest ≠ Some "error") by discriminate.
  assert (Hch : resolveChannels (SampleRoutes.fromRoom None) Sample.bareRequest = inr [])
    by reflexivity.
  exact (conj Hacc (conj Hch
    (at_sample no_channels_message_names_the_parameter
       Sample.configured Sample.bareRequest Sample.direct None "room"
       Hacc Hflags eq_refl Hid Hch))).
Defined.

(** X7 at a query that repeats a channel. *)
Lemma resolved_channels_NoDup_witness :
  NoDup (configuredChannels None) ∧
  resolveChannels None Sample.subscribeRequest = inr ["a"; "b"] ∧
  NoDup ["a"; "b"].
Proof.
  assert (Hnd : NoDup (configuredChannels None)) by constructor.
  assert (Hch : resolveChannels None Sample.subscribeRequest = inr ["a"; "b"])
    by reflexivity.
  exact (conj Hnd (conj Hch
    (resolved_channels_NoDup Sample.URL_searchParams None Sample.subscribeRequest
       ["a"; "b"] Hnd Hch))).
Defined.

(** The first request for [room] on a new handler. *)
Lemma getChannelWritable_first_call_witness :
  _channelWritables Sample.unconfigured !! "room" = None ∧
("room" ∉ objectPrototype) ∧
  ∃ this',
    getChannelWritable "room" (Sample.unconfigured, [])
      = (ChannelWritableRef 0, (this', ["room"])) ∧
    _channelWritables this' !! "room" = Some (ChannelWritableRef 0) ∧
    getChannelWritable "room" (this', ["room"])
      = (ChannelWritableRef 0, (this', ["room"])).
Proof.
  assert (Hown : _channelWritables Sample.unconfigured !! "room" = None) by reflexivity.
  assert (Hproto : "room" ∉ objectPrototype)
    by (intros Hin; absent_from_log Hin).
  exact (conj Hown (conj Hproto
    (getChannelWritable_first_call "room" Sample.unconfigured [] Hown Hproto))).
Defined.

(** X12 at the channels [a] and [b] on a new handler. *)
Lemma distinct_channels_get_distinct_writables_witness :
  cacheWellFormed SampleRoutes.newCache ∧
  "a" ≠ "b" ∧
  (getChannelWritable "a" SampleRoutes.newCache).1
    ≠ (getChannelWritable "b" (getChannelWritable "a" SampleRoutes.newCache).2).1 ∧
  (∃ a1 a2,
     (getChannelWritable "a" SampleRoutes.newCache).1 = ChannelWritableRef a1 ∧
     (getChannelWritable "b" (getChannelWritable "a" SampleRoutes.newCache).2).1
       = ChannelWritableRef a2 ∧
     (getChannelWritable "b" (getChannelWritable "a" SampleRoutes.newCache).2).2.2 !! a1
       = Some "a" ∧
     (getChannelWritable "b" (getChannelWritable "a" SampleRoutes.newCache).2).2.2 !! a2
       = Some "b") ∧
  (getChannelWritable "a"
     (getChannelWritable "b" (getChannelWritable "a" SampleRoutes.newCache).2).2).1
    = (getChannelWritable "a" SampleRoutes.newCache).1.
Proof.
  assert (Hwf : cacheWellFormed SampleRoutes.newCache).
  { intros c v Hc. simpl in Hc. rewrite lookup_empty in Hc. discriminate. }
  assert (Ha : "a" ∉ objectPrototype) by (intros Hin; absent_from_log Hin).
  assert (Hb : "b" ∉ objectPrototype) by (intros Hin; absent_from_log Hin).
  assert (Hne : "a" ≠ "b") by discriminate.
  exact (conj Hwf (conj Hne
    (distinct_channels_get_distinct_writables SampleRoutes.newCache "a" "b"
       Hwf Ha Hb Hne))).
Defined.

(** X14 at a handler made without arguments. *)
Lemma without_names_the_query_decides_witness :
  resolveChannels (asOptions (parseParams [])) Sample.subscribeRequest = inr ["a"; "b"].
Proof.
  exact (without_names_the_query_decides Sample.URL_searchParams []
           Sample.subscribeRequest (or_introl eq_refl)).
Defined.

(** X15 at a call with the request alone. *)
Lemma route_on_a_request_needs_two_or_three_arguments_witness :
  SampleRoutes.route Sample.configured [ArgRequest Sample.subscribeRequest ArgUndefined]
    = ReturnedUndefined.
Proof.
  apply (at_sample route_on_a_request_needs_two_or_three_arguments
           Sample.configured Sample.subscribeRequest ArgUndefined []); discriminate.
Defined.

(** X19 at a held request. *)
Lemma nothing_follows_the_end_witness :
  calls (Sample.run Sample.configured None (arrive Sample.heldRequest)).2 =
    [ StartInstruct; SetHoldStream; AddChannel ["a"; "b"];
      SetKeepAlive (Sample.encodeEvent keepAlive) Sample.KEEP_ALIVE_TIMEOUT; ToHeaders;
      ResWrite (Sample.joinEncodedEvents [Sample.encodeEvent streamOpen]) ]
    ++ ResEnd None :: [] ∧
  @nil Call = [].
Proof.
  assert (Hcalls :
    calls (Sample.run Sample.configured None (arrive Sample.heldRequest)).2 =
      [ StartInstruct; SetHoldStream; AddChannel ["a"; "b"];
        SetKeepAlive (Sample.encodeEvent keepAlive) Sample.KEEP_ALIVE_TIMEOUT; ToHeaders;
        ResWrite (Sample.joinEncodedEvents [Sample.encodeEvent streamOpen]) ]
      ++ ResEnd None :: []) by reflexivity.
  exact (conj Hcalls
    (at_sample nothing_follows_the_end
       Sample.configured None Sample.heldRequest None _ [] Hcalls)).
Defined.

End MoreInstances.
